(** * Tavus Bridge: a shallow embedding of [main.py]

    The bridge exposes an OpenAI-shaped chat-completions endpoint and
    translates each call into calls against a "teacher" backend.  This
    file embeds the request handler and the helpers it is made of, and
    proves the properties of the specification about them.

    Layout: Python text and values, the regular expressions of the tag
    parser, MD5, [json.dumps], then the bridge itself; the theorems
    follow the definitions. *)

From Stdlib Require Import ZArith NArith QArith Lia List String Ascii DecimalString.
From stdpp Require Import base option list gmap.

Close Scope Q_scope.
Open Scope N_scope.
Open Scope list_scope.

(** ** Python text

    A Python [str] is a sequence of Unicode code points.  The text the
    bridge handles comes out of a JSON decoder and through the request
    model's validation. *)

Definition char := N.
Definition str := list char.

(** A string literal of the source (ASCII). *)
Definition lit (s : string) : str :=
  List.map N_of_ascii (list_ascii_of_string s).
Arguments lit s%_string.

(** [str.isspace] on one character; [\s] of [re] on text uses the same
    table. *)
Definition isspace (c : char) : bool :=
  ((0x09 <=? c) && (c <=? 0x0d))
  || ((0x1c <=? c) && (c <=? 0x20))
  || (c =? 0x85) || (c =? 0xa0) || (c =? 0x1680)
  || ((0x2000 <=? c) && (c <=? 0x200a))
  || (c =? 0x2028) || (c =? 0x2029) || (c =? 0x202f)
  || (c =? 0x205f) || (c =? 0x3000).

Fixpoint lstrip (s : str) : str :=
  match s with
  | c :: s' => if isspace c then lstrip s' else s
  | [] => []
  end.

Definition rstrip (s : str) : str := rev (lstrip (rev s)).

(** [s.strip()] *)
Definition strip (s : str) : str := rstrip (lstrip s).

(** [s.split()]: the maximal runs of non-whitespace characters, in
    order.  [word] is the run being read. *)
Fixpoint split_from (word : str) (s : str) : list str :=
  match s with
  | [] => match word with [] => [] | _ => [word] end
  | c :: s' =>
      if isspace c
      then match word with
           | [] => split_from [] s'
           | _ => word :: split_from [] s'
           end
      else split_from (word ++ [c]) s'
  end.

Definition split (s : str) : list str := split_from [] s.

(** Truth value of a [str]: non-empty. *)
Definition truthy (s : str) : bool :=
  match s with [] => false | _ => true end.

(** ** Regular expressions

    The fragment of [re] the tag patterns are written in: literal
    characters, the classes [\s] and [[^c]], greedy repetition of a class
    and one capturing group around such a repetition. *)

Inductive cls :=
| Space                 (* \s *)
| NotChr (c : char).    (* [^c] *)

Definition cls_has (k : cls) (c : char) : bool :=
  match k with
  | Space => isspace c
  | NotChr x => negb (c =? x)
  end.

Inductive atom :=
| Chr (c : char)                (* a literal character *)
| Rep (k : cls) (least : nat)   (* star: [Rep k 0], plus: [Rep k 1] *)
| Grp (k : cls) (least : nat).  (* the same in parentheses: group 1 *)

(** Greedy repetition with backtracking: take as many characters of the
    class as there are, try the rest of the pattern, and give characters
    back one at a time while it fails.  [taken] is what has been consumed
    so far, [cont] the rest of the pattern. *)
Fixpoint greedy {A} (k : cls) (least : nat) (taken s : str)
    (cont : str -> str -> option A) : option A :=
  let stop := match least with O => cont taken s | S _ => None end in
  match s with
  | c :: s' =>
      if cls_has k c
      then match greedy k (pred least) (taken ++ [c]) s' cont with
           | Some r => Some r
           | None => stop
           end
      else stop
  | [] => stop
  end.

(** [re.match] at the head of [s]; the result is the text of group 1
    ([g] while the group has not been passed). *)
Fixpoint match_here (p : list atom) (s : str) (g : str) : option str :=
  match p with
  | [] => Some g
  | Chr c :: p' =>
      match s with
      | x :: s' => if x =? c then match_here p' s' g else None
      | [] => None
      end
  | Rep k least :: p' =>
      greedy k least [] s (fun _ rest => match_here p' rest g)
  | Grp k least :: p' =>
      greedy k least [] s (fun taken rest => match_here p' rest taken)
  end.

(** [re.search(p, s)]: the match at the leftmost position that has one;
    [Some g] is a match object whose [group(1)] is [g]. *)
Fixpoint search (p : list atom) (s : str) : option str :=
  match match_here p s [] with
  | Some g => Some g
  | None =>
      match s with
      | [] => None
      | _ :: s' => search p s'
      end
  end.

(** ** [str.encode()] and [hashlib.md5]

    Bytes are integers in 0..255, machine words integers in 0..2^32-1
    with the wrap-around written out. *)

Open Scope Z_scope.

(** UTF-8 of one code point.  Python refuses to encode a lone surrogate
    (U+D800 to U+DFFF); such a code point is no valid text and is taken
    not to occur in the content of a message, so the encoding here is
    total. *)
Definition utf8 (c : char) : list Z :=
  let z := Z.of_N c in
  if z <? 0x80 then [z]
  else if z <? 0x800 then
    [Z.lor 0xC0 (Z.shiftr z 6); Z.lor 0x80 (Z.land z 0x3F)]
  else if z <? 0x10000 then
    [Z.lor 0xE0 (Z.shiftr z 12);
     Z.lor 0x80 (Z.land (Z.shiftr z 6) 0x3F);
     Z.lor 0x80 (Z.land z 0x3F)]
  else
    [Z.lor 0xF0 (Z.land (Z.shiftr z 18) 0x07);
     Z.lor 0x80 (Z.land (Z.shiftr z 12) 0x3F);
     Z.lor 0x80 (Z.land (Z.shiftr z 6) 0x3F);
     Z.lor 0x80 (Z.land z 0x3F)].

(** [s.encode()] *)
Definition encode (s : str) : list Z := flat_map utf8 s.

Definition w32 (x : Z) : Z := x mod 2 ^ 32.

Definition lnot32 (x : Z) : Z := Z.lxor x 0xFFFFFFFF.

Definition rotl32 (x c : Z) : Z :=
  w32 (Z.lor (Z.shiftl x c) (Z.shiftr x (32 - c))).

(** [n] bytes of [x], least significant first. *)
Fixpoint le_bytes (n : nat) (x : Z) : list Z :=
  match n with
  | O => []
  | S n' => x mod 256 :: le_bytes n' (x / 256)
  end.

Fixpoint le_word (bs : list Z) : Z :=
  match bs with
  | [] => 0
  | b :: bs' => b + 256 * le_word bs'
  end.

Definition md5_shift : list Z :=
  [7; 12; 17; 22; 7; 12; 17; 22; 7; 12; 17; 22; 7; 12; 17; 22;
   5; 9; 14; 20; 5; 9; 14; 20; 5; 9; 14; 20; 5; 9; 14; 20;
   4; 11; 16; 23; 4; 11; 16; 23; 4; 11; 16; 23; 4; 11; 16; 23;
   6; 10; 15; 21; 6; 10; 15; 21; 6; 10; 15; 21; 6; 10; 15; 21].

Definition md5_sine : list Z :=
  [0xd76aa478; 0xe8c7b756; 0x242070db; 0xc1bdceee;
   0xf57c0faf; 0x4787c62a; 0xa8304613; 0xfd469501;
   0x698098d8; 0x8b44f7af; 0xffff5bb1; 0x895cd7be;
   0x6b901122; 0xfd987193; 0xa679438e; 0x49b40821;
   0xf61e2562; 0xc040b340; 0x265e5a51; 0xe9b6c7aa;
   0xd62f105d; 0x02441453; 0xd8a1e681; 0xe7d3fbc8;
   0x21e1cde6; 0xc33707d6; 0xf4d50d87; 0x455a14ed;
   0xa9e3e905; 0xfcefa3f8; 0x676f02d9; 0x8d2a4c8a;
   0xfffa3942; 0x8771f681; 0x6d9d6122; 0xfde5380c;
   0xa4beea44; 0x4bdecfa9; 0xf6bb4b60; 0xbebfbc70;
   0x289b7ec6; 0xeaa127fa; 0xd4ef3085; 0x04881d05;
   0xd9d4d039; 0xe6db99e5; 0x1fa27cf8; 0xc4ac5665;
   0xf4292244; 0x432aff97; 0xab9423a7; 0xfc93a039;
   0x655b59c3; 0x8f0ccc92; 0xffeff47d; 0x85845dd1;
   0x6fa87e4f; 0xfe2ce6e0; 0xa3014314; 0x4e0811a1;
   0xf7537e82; 0xbd3af235; 0x2ad7d2bb; 0xeb86d391].

(** The message, a 1 bit, zeros up to 56 modulo 64, and the length in
    bits on 8 bytes. *)
Definition md5_pad (msg : list Z) : list Z :=
  let len := Z.of_nat (length msg) in
  msg ++ [0x80] ++ repeat 0 (Z.to_nat ((55 - len) mod 64))
      ++ le_bytes 8 ((8 * len) mod 2 ^ 64).

Fixpoint md5_blocks (n : nat) (bs : list Z) : list (list Z) :=
  match n with
  | O => []
  | S n' => firstn 64 bs :: md5_blocks n' (skipn 64 bs)
  end.

Definition md5_words (block : list Z) : list Z :=
  List.map (fun i => le_word (firstn 4 (skipn (4 * i) block))) (seq 0 16).

Definition md5_state : Type := Z * Z * Z * Z.

Definition md5_round (M : list Z) (st : md5_state) (i : nat) : md5_state :=
  let '(a, b, c, d) := st in
  let iz := Z.of_nat i in
  let '(f, g) :=
    if iz <? 16 then (Z.lor (Z.land b c) (Z.land (lnot32 b) d), iz)
    else if iz <? 32 then
      (Z.lor (Z.land d b) (Z.land (lnot32 d) c), (5 * iz + 1) mod 16)
    else if iz <? 48 then (Z.lxor (Z.lxor b c) d, (3 * iz + 5) mod 16)
    else (Z.lxor c (Z.lor b (lnot32 d)), (7 * iz) mod 16) in
  let f' := w32 (f + a + nth i md5_sine 0 + nth (Z.to_nat g) M 0) in
  (d, w32 (b + rotl32 f' (nth i md5_shift 0)), b, c).

Definition md5_block (st : md5_state) (block : list Z) : md5_state :=
  let '(a0, b0, c0, d0) := st in
  let '(a, b, c, d) := fold_left (md5_round (md5_words block)) (seq 0 64) st in
  (w32 (a0 + a), w32 (b0 + b), w32 (c0 + c), w32 (d0 + d)).

Definition md5_init : md5_state :=
  (0x67452301, 0xefcdab89, 0x98badcfe, 0x10325476).

(** [hashlib.md5(msg).digest()] *)
Definition md5_digest (msg : list Z) : list Z :=
  let padded := md5_pad msg in
  let '(a, b, c, d) :=
    fold_left md5_block (md5_blocks (length padded / 64) padded) md5_init in
  flat_map (le_bytes 4) [a; b; c; d].

Definition hex_digit (x : Z) : char :=
  Z.to_N (if x <? 10 then 48 + x else 87 + x).

Definition hex_byte (b : Z) : str := [hex_digit (b / 16); hex_digit (b mod 16)].

(** [hashlib.md5(msg).hexdigest()] *)
Definition md5_hexdigest (msg : list Z) : str :=
  flat_map hex_byte (md5_digest msg).

Close Scope Z_scope.

(** ** JSON values and [json.dumps]

    What [response.json()] returns and what [json.dumps] takes: [None],
    booleans, integers, text, lists and dictionaries with text keys (a
    dictionary lists its items in insertion order; a decoded object has
    distinct keys).  A [float] behaves as an [int] in every operation the
    bridge applies to a decoded value, and the bridge serialises none. *)

#[local] Unset Elimination Schemes.
Inductive json :=
| JNull
| JBool (b : bool)
| JInt (n : Z)
| JStr (s : str)
| JArr (items : list json)
| JObj (items : list (str * json)).
#[local] Set Elimination Schemes.

Definition newline : char := 10.

(** The escape of one character inside a JSON string, with
    [ensure_ascii] (the default of [json.dumps]). *)
Definition hex4 (z : Z) : str :=
  [hex_digit ((z / 4096) mod 16); hex_digit ((z / 256) mod 16);
   hex_digit ((z / 16) mod 16); hex_digit (z mod 16)]%Z.

Definition escape_char (c : char) : str :=
  if c =? 34 then [92; 34]            (* quote *)
  else if c =? 92 then [92; 92]       (* backslash *)
  else if c =? 10 then [92; 110]      (* \n *)
  else if c =? 13 then [92; 114]      (* \r *)
  else if c =? 9 then [92; 116]       (* \t *)
  else if c =? 8 then [92; 98]        (* \b *)
  else if c =? 12 then [92; 102]      (* \f *)
  else if (32 <=? c) && (c <=? 126) then [c]
  else if c <? 0x10000 then [92; 117] ++ hex4 (Z.of_N c)
  else
    let n := (Z.of_N c - 0x10000)%Z in
    [92; 117] ++ hex4 (Z.lor 0xd800 (Z.land (Z.shiftr n 10) 0x3ff))
    ++ [92; 117] ++ hex4 (Z.lor 0xdc00 (Z.land n 0x3ff)).

Definition dumps_str (s : str) : str := [34] ++ flat_map escape_char s ++ [34].

Definition dumps_int (n : Z) : str :=
  lit (NilZero.string_of_int (Z.to_int n)).

(** [json.dumps(v)] with the default separators. *)
Fixpoint dumps (v : json) : str :=
  match v with
  | JNull => lit "null"
  | JBool true => lit "true"
  | JBool false => lit "false"
  | JInt n => dumps_int n
  | JStr s => dumps_str s
  | JArr items =>
      lit "["
      ++ (fix go (l : list json) : str :=
            match l with
            | [] => []
            | x :: l' =>
                dumps x ++ match l' with [] => [] | _ => lit ", " ++ go l' end
            end) items
      ++ lit "]"
  | JObj items =>
      lit "{"
      ++ (fix go (l : list (str * json)) : str :=
            match l with
            | [] => []
            | (k, x) :: l' =>
                dumps_str k ++ lit ": " ++ dumps x
                ++ match l' with [] => [] | _ => lit ", " ++ go l' end
            end) items
      ++ lit "}"
  end.

(** ** Exceptions

    The exceptions that occur in the bridge.  All of them are subclasses
    of [Exception]; [HTTPError] is httpx's (timeouts and connection
    errors are among its subclasses), [HTTPException] is FastAPI's. *)

Inductive exn :=
| HTTPException (status_code : Z) (detail : str)
| HTTPError (message : str)
| JSONDecodeError
| KeyError (key : str)
| TypeError
| AttributeError.

Inductive result (A : Type) :=
| Ok (a : A)
| Raise (e : exn).
Arguments Ok {A} a.
Arguments Raise {A} e.

(** [isinstance(e, httpx.HTTPError)] *)
Definition is_httpx_error (e : exn) : bool :=
  match e with HTTPError _ => true | _ => false end.

(** Operations of Python on decoded values. *)

Fixpoint assoc (k : str) (items : list (str * json)) : option json :=
  match items with
  | [] => None
  | (k', v) :: items' => if decide (k = k') then Some v else assoc k items'
  end.

(** [v[k]] with a text key *)
Definition getitem (v : json) (k : str) : result json :=
  match v with
  | JObj items =>
      match assoc k items with
      | Some x => Ok x
      | None => Raise (KeyError k)
      end
  | _ => Raise TypeError
  end.

(** [v.get(k, default)] *)
Definition get (v : json) (k : str) (default : json) : result json :=
  match v with
  | JObj items =>
      match assoc k items with
      | Some x => Ok x
      | None => Ok default
      end
  | _ => Raise AttributeError
  end.

(** [v[:n]]: text and lists can be sliced; a dictionary refuses a slice
    as a key. *)
Definition slice_to (n : nat) (v : json) : result json :=
  match v with
  | JStr s => Ok (JStr (firstn n s))
  | JArr items => Ok (JArr (firstn n items))
  | _ => Raise TypeError
  end.

(** ** The bridge: models *)

Record Message := { role : str; content : str }.

Record ChatCompletionRequest := {
  model : str;
  messages : list Message;
  stream : bool;
  temperature : option Q;
  max_tokens : option Z
}.

(** [ChatCompletionResponse]; [cc_object] has the default
    ["chat.completion"], each choice is a dictionary. *)
Record ChatCompletionResponse := {
  cc_id : str;
  cc_object : str;
  cc_created : Z;
  cc_model : str;
  cc_choices : list json
}.

(** The configuration dictionary of [extract_config_from_system_prompt]:
    seven fixed keys. *)
Record Config := {
  subject : str;
  chapter : str;
  lesson : str;
  level : str;
  language : str;
  student : str;
  competence : list str
}.

#[global] Instance Config_eq_dec : EqDecision Config.
Proof. solve_decision. Defined.

Inductive key :=
| Subject | Chapter | Lesson | Level | Language | Student | Competence.

(** ** Config Extractor *)

(** The loop [for msg in msgs: if msg.role == r: ... = msg.content; break]
    over a variable that starts as the empty text. *)
Fixpoint first_content (r : str) (msgs : list Message) : str :=
  match msgs with
  | [] => []
  | msg :: rest =>
      if bool_decide (role msg = r) then content msg else first_content r rest
  end.

Definition system_content (msgs : list Message) : str :=
  first_content (lit "system") msgs.

Definition rbracket : char := 93.

(** The pattern [\[NAME:\s*([^\]]+)\]]: the opening as literal
    characters, then [tag_tail]. *)
Definition tag_tail : list atom :=
  [Rep Space 0; Grp (NotChr rbracket) 1; Chr rbracket].

Definition tag_pattern (name : str) : list atom :=
  List.map Chr (lit "[" ++ name ++ lit ":") ++ tag_tail.

Definition patterns : list (key * list atom) :=
  [ (Subject, tag_pattern (lit "SUBJECT"));
    (Chapter, tag_pattern (lit "CHAPTER"));
    (Lesson, tag_pattern (lit "LESSON"));
    (Level, tag_pattern (lit "LEVEL"));
    (Language, tag_pattern (lit "LANGUAGE"));
    (Student, tag_pattern (lit "STUDENT"));
    (Competence, tag_pattern (lit "COMPETENCE")) ].

Definition default_competence : str := lit "Understanding the core concepts".

Definition default_config : Config := {|
  subject := lit "Physics";
  chapter := lit "General";
  lesson := lit "Introduction";
  level := lit "High School";
  language := lit "en";
  student := lit "Student";
  competence := [default_competence]
|}.

Definition set_competence (v : list str) (c : Config) : Config :=
  {| subject := subject c; chapter := chapter c; lesson := lesson c;
     level := level c; language := language c; student := student c;
     competence := v |}.

(** [config[key] = [value]] for competence, [config[key] = value] for the
    other keys. *)
Definition assign (k : key) (value : str) (c : Config) : Config :=
  match k with
  | Subject =>
      {| subject := value; chapter := chapter c; lesson := lesson c;
         level := level c; language := language c; student := student c;
         competence := competence c |}
  | Chapter =>
      {| subject := subject c; chapter := value; lesson := lesson c;
         level := level c; language := language c; student := student c;
         competence := competence c |}
  | Lesson =>
      {| subject := subject c; chapter := chapter c; lesson := value;
         level := level c; language := language c; student := student c;
         competence := competence c |}
  | Level =>
      {| subject := subject c; chapter := chapter c; lesson := lesson c;
         level := value; language := language c; student := student c;
         competence := competence c |}
  | Language =>
      {| subject := subject c; chapter := chapter c; lesson := lesson c;
         level := level c; language := value; student := student c;
         competence := competence c |}
  | Student =>
      {| subject := subject c; chapter := chapter c; lesson := lesson c;
         level := level c; language := language c; student := value;
         competence := competence c |}
  | Competence => set_competence [value] c
  end.

(** One turn of the loop over [patterns.items()]. *)
Definition parse_tag (text : str) (c : Config) (kp : key * list atom) : Config :=
  match search (snd kp) text with
  | Some g => assign (fst kp) (strip g) c
  | None => c
  end.

Definition extract_config_from_system_prompt (msgs : list Message) : Config :=
  let config := fold_left (parse_tag (system_content msgs)) patterns default_config in
  if bool_decide (competence config = [default_competence]) && truthy (lesson config)
  then set_competence [lit "Understanding " ++ lesson config] config
  else config.

(** ** Conversation Identity *)

Definition get_conversation_id (msgs : list Message) : str :=
  md5_hexdigest (encode (system_content msgs)).

Definition get_last_user_message (msgs : list Message) : str :=
  first_content (lit "user") (rev msgs).

(** ** The world outside the bridge

    A request is handled against what the rest of the world does while it
    runs: the backend's answer to a POST, the clock and the UUID source.
    [posted] in the state below records the POSTs the bridge makes. *)

(** An httpx response: [.status_code], [.text], and [.json()], which is
    [None] when the body is not JSON. *)
Record HttpResponse := {
  status_code : Z;
  text : str;
  json_body : option json
}.

Inductive post_result :=
| Responds (r : HttpResponse)
| Fails (message : str).     (* timeout, connection error: httpx.HTTPError *)

Record World := {
  TEACHER_API_URL : str;
  http_post : str -> json -> post_result;   (* http_client.post(url, json=...) *)
  clock_session : Q;     (* time.time() when a session is built *)
  clock_response : Q;    (* time.time() when the response is built *)
  uuid4 : str            (* str(uuid.uuid4()) *)
}.

(** [int(x)] on a float: truncation towards zero. *)
Definition int_of_float (x : Q) : Z := Z.quot (Qnum x) (Zpos (Qden x)).

(** ** Session Store and the handler's monad

    [print] is taken to succeed and leaves no trace here; the slices
    [[:50]] and [[:100]] that the source takes inside its log lines are
    kept, since they raise on a value that cannot be sliced. *)

Record Session := {
  session_id : json;
  config : Config;
  created : Q;
  initial_message : json
}.

Record State := {
  sessions : gmap str Session;       (* the module-level dictionary *)
  posted : list (str * json)         (* POSTs made so far: url, payload *)
}.

(** A computation reads and writes the state and returns or raises. *)
Definition M (A : Type) : Type := State -> result A * State.

Definition ret {A} (a : A) : M A := fun st => (Ok a, st).

Definition raise {A} (e : exn) : M A := fun st => (Raise e, st).

Definition bind {A B} (c : M A) (k : A -> M B) : M B :=
  fun st =>
    match c st with
    | (Ok a, st') => k a st'
    | (Raise e, st') => (Raise e, st')
    end.

Notation "'let!' x ':=' c 'in' k" := (bind c (fun x => k))
  (at level 10, x pattern, c at level 100, k at level 200).

Definition lift {A} (r : result A) : M A := fun st => (r, st).

(** [try: body / except E as e: handler(e)], [catches] telling the
    exceptions of class [E].  What the body did to the state stays. *)
Definition try_except {A} (body : M A) (catches : exn -> bool)
    (handler : exn -> M A) : M A :=
  fun st =>
    match body st with
    | (Ok a, st') => (Ok a, st')
    | (Raise e, st') => if catches e then handler e st' else (Raise e, st')
    end.

(** [sessions.get(k)] and [sessions[k] = s] *)
Definition sessions_get (k : str) : M (option Session) :=
  fun st => (Ok (sessions st !! k), st).

Definition sessions_set (k : str) (s : Session) : M unit :=
  fun st => (Ok tt, {| sessions := <[k := s]> (sessions st); posted := posted st |}).

(** ** Backend Client *)

Definition post (w : World) (url : str) (payload : json) : M HttpResponse :=
  fun st =>
    let st' := {| sessions := sessions st; posted := posted st ++ [(url, payload)] |} in
    match http_post w url payload with
    | Responds r => (Ok r, st')
    | Fails message => (Raise (HTTPError message), st')
    end.

(** [response.json()] *)
Definition response_json (r : HttpResponse) : result json :=
  match json_body r with
  | Some v => Ok v
  | None => Raise JSONDecodeError
  end.

Definition start_url (w : World) : str :=
  TEACHER_API_URL w ++ lit "/api/v1/teacher/start".

Definition message_url (w : World) : str :=
  TEACHER_API_URL w ++ lit "/api/v1/teacher/message".

(** The payload of StartSession.  The source reads the configuration with
    [config.get(key, default)]; an extracted configuration has all seven
    keys, so those defaults are never used. *)
Definition start_payload (config : Config) : json :=
  JObj [ (lit "subject", JStr (subject config));
         (lit "chapter", JStr (chapter config));
         (lit "lesson", JStr (lesson config));
         (lit "level", JStr (level config));
         (lit "student_name", JStr (student config));
         (lit "teacher_language", JStr (language config));
         (lit "competence", JArr (List.map JStr (competence config))) ].

Definition start_teacher_session (w : World) (config : Config) : M json :=
  let url := start_url w in
  let payload := start_payload config in
  try_except
    (let! response := post w url payload in
     if negb (status_code response =? 201)%Z
     then raise (HTTPException (status_code response) (text response))
     else lift (response_json response))
    is_httpx_error
    (fun e => raise e).

Definition message_payload (session_id : json) (message : str) : json :=
  JObj [ (lit "session_id", session_id); (lit "message", JStr message) ].

Definition send_message_to_teacher (w : World) (session_id : json)
    (message : str) : M json :=
  let url := message_url w in
  let payload := message_payload session_id message in
  try_except
    (let! response := post w url payload in
     if negb (status_code response =? 200)%Z
     then raise (HTTPException (status_code response) (text response))
     else lift (response_json response))
    is_httpx_error
    (fun e => raise e).

(** ** Response Translator *)

(** [f"data: {payload}\n\n"] *)
Definition sse (payload : str) : str :=
  lit "data: " ++ payload ++ [newline; newline].

Definition chunk (chat_id : str) (created : Z) (model : str)
    (delta finish_reason : json) : json :=
  JObj [ (lit "id", JStr chat_id);
         (lit "object", JStr (lit "chat.completion.chunk"));
         (lit "created", JInt created);
         (lit "model", JStr model);
         (lit "choices",
           JArr [ JObj [ (lit "index", JInt 0);
                         (lit "delta", delta);
                         (lit "finish_reason", finish_reason) ] ]) ].

(** The loop over the words: one event a word. *)
Fixpoint word_events (chat_id : str) (created : Z) (model : str)
    (words : list str) : list str :=
  match words with
  | [] => []
  | word :: rest =>
      let chunk_data :=
        chunk chat_id created model
          (JObj [ (lit "content", JStr (word ++ lit " ")) ]) JNull in
      sse (dumps chunk_data) :: word_events chat_id created model rest
  end.

(** [stream_response(text, chat_id, model)] on text: everything the
    generator yields, in order. *)
Definition stream_response (w : World) (text : str) (chat_id model : str)
    : list str :=
  let words := split text in
  let created := int_of_float (clock_response w) in
  let final_chunk := chunk chat_id created model (JObj []) (JStr (lit "stop")) in
  word_events chat_id created model words
  ++ [ sse (dumps final_chunk); lit "data: [DONE]" ++ [newline; newline] ].

(** The generator on whatever the reply is: [text.split()] exists on text
    only, and the generator raises on its first step otherwise. *)
Definition stream_body (w : World) (teacher_message : json)
    (chat_id model : str) : result (list str) :=
  match teacher_message with
  | JStr text => Ok (stream_response w text chat_id model)
  | _ => Raise AttributeError
  end.

(** ** Request Orchestrator *)

Inductive Response :=
| StreamingResponse (body : result (list str)) (media_type : str)
| ModelResponse (r : ChatCompletionResponse).

Definition greeting : str := lit "Hello! I'm your AI teacher.".

Definition fallback : str :=
  lit "I apologize, but I didn't catch that. Could you please repeat?".

Definition apology : str :=
  lit "I'm having a small technical issue. Could you repeat that?".

(** The [try] block: the reply of the teacher, by a new session or by
    the stored one. *)
Definition teacher_reply (w : World) (cfg : Config) (conversation_id : str)
    (user_message : str) (session : option Session) : M json :=
  match session with
  | None =>
      let! session_data := start_teacher_session w cfg in
      let! sid := lift (getitem session_data (lit "session_id")) in
      let! first := lift (get session_data (lit "initial_message") (JStr greeting)) in
      let session :=
        {| session_id := sid; config := cfg; created := clock_session w;
           initial_message := first |} in
      let! _ := sessions_set conversation_id session in
      let teacher_message := initial_message session in
      let! _ := lift (slice_to 50 teacher_message) in
      ret teacher_message
  | Some session =>
      let! response_data :=
        send_message_to_teacher w (session_id session) user_message in
      let! teacher_message :=
        lift (get response_data (lit "teacher_message") (JStr fallback)) in
      let! _ := lift (slice_to 100 teacher_message) in
      ret teacher_message
  end.

(** The end of the handler: the response built around the reply, a
    stream or one completed chat object. *)
Definition respond (w : World) (request : ChatCompletionRequest)
    (teacher_message : json) : Response :=
  let chat_id := uuid4 w in
  if stream request
  then StreamingResponse
         (stream_body w teacher_message chat_id (model request))
         (lit "text/event-stream")
  else ModelResponse
         {| cc_id := chat_id;
            cc_object := lit "chat.completion";
            cc_created := int_of_float (clock_response w);
            cc_model := model request;
            cc_choices :=
              [ JObj [ (lit "index", JInt 0);
                       (lit "message",
                         JObj [ (lit "role", JStr (lit "assistant"));
                                (lit "content", teacher_message) ]);
                       (lit "finish_reason", JStr (lit "stop")) ] ] |}.

(** The [try] block with its [except Exception]. *)
Definition guarded_reply (w : World) (cfg : Config) (conversation_id : str)
    (user_message : str) (session : option Session) : M json :=
  try_except
    (teacher_reply w cfg conversation_id user_message session)
    (fun _ => true)
    (fun _ => ret (JStr apology)).

Definition chat_completions (w : World) (request : ChatCompletionRequest)
    : M Response :=
  let cfg := extract_config_from_system_prompt (messages request) in
  let conversation_id := get_conversation_id (messages request) in
  let user_message := get_last_user_message (messages request) in
  let! session := sessions_get conversation_id in
  let! teacher_message :=
    guarded_reply w cfg conversation_id user_message session in
  ret (respond w request teacher_message).

(** What the caller sees of the handler's outcome: FastAPI answers 200
    when the handler returns, the status of an [HTTPException] it raises,
    500 on any other exception. *)
Definition http_status (r : result Response) : Z :=
  match r with
  | Ok _ => 200
  | Raise (HTTPException code _) => code
  | Raise _ => 500
  end.

(** Requests served one after the other, each against the world as it
    is while that request runs. *)
Fixpoint serve (reqs : list (World * ChatCompletionRequest)) (st : State)
    : list (result Response) * State :=
  match reqs with
  | [] => ([], st)
  | (w, request) :: rest =>
      let '(r, st') := chat_completions w request st in
      let '(rs, st'') := serve rest st' in
      (r :: rs, st'')
  end.

(** ** The vocabulary of the specification *)

(** A bracketed tag [[NAME: value]] in a text: the opening [[NAME:], then
    a non-empty value without a closing bracket, then the bracket. *)
Definition tag_open (name : str) : str := lit "[" ++ name ++ lit ":".

Definition tag_at (name text pre raw post : str) : Prop :=
  text = pre ++ tag_open name ++ raw ++ rbracket :: post
  /\ raw <> [] /\ ~ In rbracket raw.

Definition has_tag (name text : str) : Prop :=
  exists pre raw post, tag_at name text pre raw post.

(** The tag that starts first; [raw] is its value before trimming. *)
Definition first_tag (name text raw : str) : Prop :=
  exists pre post,
    tag_at name text pre raw post
    /\ forall pre' raw' post',
         tag_at name text pre' raw' post' -> (length pre <= length pre')%nat.

(** The rule of a text field of the configuration: the default when the
    text has no tag of that name, the trimmed value of the first tag
    otherwise. *)
Definition field_rule (name default text value : str) : Prop :=
  (~ has_tag name text -> value = default)
  /\ (forall raw, first_tag name text raw -> value = strip raw).

(** The text before the first closing bracket and the text after it. *)
Fixpoint value_run (s : str) : option (str * str) :=
  match s with
  | [] => None
  | c :: s' =>
      if c =? rbracket then Some ([], s')
      else match value_run s' with
           | Some (raw, post) => Some (c :: raw, post)
           | None => None
           end
  end.

(** The state after one more POST. *)
Definition after_post (st : State) (url : str) (payload : json) : State :=
  {| sessions := sessions st; posted := posted st ++ [(url, payload)] |}.

(** What a call returns or raises, by what the backend did. *)
Definition call_outcome (o : post_result) (success : Z) : result json :=
  match o with
  | Responds r =>
      if (status_code r =? success)%Z then response_json r
      else Raise (HTTPException (status_code r) (text r))
  | Fails message => Raise (HTTPError message)
  end.

(** Text Python can encode: code points up to U+10FFFF. *)
Definition valid_text (s : str) : Prop := Forall (fun c => c < 0x110000) s.

(** UTF-8 by division: the bytes of [utf8] as sums. *)
Definition utf8_arith (z : Z) : list Z :=
  (if z <? 0x80 then [z]
   else if z <? 0x800 then [192 + z / 64; 128 + z mod 64]
   else if z <? 0x10000 then
     [224 + z / 4096; 128 + (z / 64) mod 64; 128 + z mod 64]
   else
     [240 + (z / 262144) mod 8; 128 + (z / 4096) mod 64;
      128 + (z / 64) mod 64; 128 + z mod 64])%Z.

(** The number of bytes that follow a leading byte. *)
Definition utf8_following (b : Z) : nat :=
  (if b <? 0x80 then 0%nat else if b <? 0xE0 then 1%nat
   else if b <? 0xF0 then 2%nat else 3%nat)%Z.

(** A lowercase hexadecimal digit. *)
Definition hex_char (c : char) : Prop :=
  (48 <= c <= 57) \/ (97 <= c <= 102).

(** Whitespace-delimited words: a text is blanks, a word, and the rest,
    which is empty or starts with a blank. *)
Definition blank (s : str) : Prop := Forall (fun c => isspace c = true) s.

Definition solid (s : str) : Prop :=
  s <> [] /\ Forall (fun c => isspace c = false) s.

Inductive delimited : str -> list str -> Prop :=
| delimited_end gap :
    blank gap -> delimited gap []
| delimited_word gap word rest words :
    blank gap -> solid word ->
    (rest = [] \/ exists c rest', rest = c :: rest' /\ isspace c = true) ->
    delimited rest words ->
    delimited (gap ++ word ++ rest) (word :: words).

(** The event of the stream that carries one word, and the one that
    closes the stream, written out. *)
Definition word_event (chat_id : str) (created : Z) (model : str)
    (word : str) : str :=
  lit "data: "
  ++ dumps
       (JObj [ (lit "id", JStr chat_id);
               (lit "object", JStr (lit "chat.completion.chunk"));
               (lit "created", JInt created);
               (lit "model", JStr model);
               (lit "choices",
                 JArr [ JObj [ (lit "index", JInt 0);
                               (lit "delta",
                                 JObj [ (lit "content", JStr (word ++ [32])) ]);
                               (lit "finish_reason", JNull) ] ]) ])
  ++ [newline; newline].

Definition stop_event (chat_id : str) (created : Z) (model : str) : str :=
  lit "data: "
  ++ dumps
       (JObj [ (lit "id", JStr chat_id);
               (lit "object", JStr (lit "chat.completion.chunk"));
               (lit "created", JInt created);
               (lit "model", JStr model);
               (lit "choices",
                 JArr [ JObj [ (lit "index", JInt 0);
                               (lit "delta", JObj []);
                               (lit "finish_reason", JStr (lit "stop")) ] ]) ])
  ++ [newline; newline].

Definition done_event : str := lit "data: [DONE]" ++ [newline; newline].

(** The text fields of a configuration, each with the name of its tag
    and its default. *)
Definition text_fields (c : Config) : list (str * str * str) :=
  [ (lit "SUBJECT", lit "Physics", subject c);
    (lit "CHAPTER", lit "General", chapter c);
    (lit "LESSON", lit "Introduction", lesson c);
    (lit "LEVEL", lit "High School", level c);
    (lit "LANGUAGE", lit "en", language c);
    (lit "STUDENT", lit "Student", student c) ].

(** A text that does not start with a blank. *)
Definition no_lead (s : str) : Prop :=
  match s with
  | c :: _ => isspace c = false
  | [] => True
  end.

(** A printable ASCII character. *)
Definition printable (c : char) : Prop := 32 <= c <= 126.

(** The contents of the deltas of the word events. *)
Definition word_deltas (words : list str) : list str :=
  List.map (fun word => word ++ [32]) words.

(** The event that carries a delta with the given content. *)
Definition delta_event (chat_id : str) (created : Z) (model : str)
    (content : str) : str :=
  lit "data: "
  ++ dumps
       (JObj [ (lit "id", JStr chat_id);
               (lit "object", JStr (lit "chat.completion.chunk"));
               (lit "created", JInt created);
               (lit "model", JStr model);
               (lit "choices",
                 JArr [ JObj [ (lit "index", JInt 0);
                               (lit "delta", JObj [ (lit "content", JStr content) ]);
                               (lit "finish_reason", JNull) ] ]) ])
  ++ [newline; newline].

(** * Properties *)

(** ** Text *)

Lemma isspace_rbracket : isspace rbracket = false.
Proof. reflexivity. Qed.

Lemma lstrip_blank_cons c s : isspace c = true -> lstrip (c :: s) = lstrip s.
Proof. intros H. simpl. now rewrite H. Qed.

Lemma strip_blank_cons c s : isspace c = true -> strip (c :: s) = strip s.
Proof. intros H. unfold strip. now rewrite lstrip_blank_cons. Qed.

Lemma lstrip_all_blank s : blank s -> lstrip s = [].
Proof.
  induction 1 as [|c s Hc _ IH]; [reflexivity|].
  now rewrite lstrip_blank_cons.
Qed.

Lemma strip_all_blank s : blank s -> strip s = [].
Proof. intros H. unfold strip. now rewrite lstrip_all_blank. Qed.

(** ** The tag patterns *)

Lemma value_run_spec s raw post :
  value_run s = Some (raw, post) <-> s = raw ++ rbracket :: post /\ ~ In rbracket raw.
Proof.
  revert raw post. induction s as [|c s IH]; intros raw post; simpl.
  - split; [discriminate|]. intros [H _]. now destruct raw.
  - destruct (N.eqb_spec c rbracket) as [->|Hc].
    + split.
      * intros [= <- <-]. split; [reflexivity|]. intros [].
      * intros [H Hin]. destruct raw as [|x raw]; simpl in H.
        -- now injection H as ->.
        -- injection H as Hx _. exfalso. apply Hin. left. now symmetry.
    + destruct (value_run s) as [[r p]|] eqn:E.
      * split.
        -- intros [= <- <-]. destruct (proj1 (IH r p) eq_refl) as [-> Hin].
           split; [reflexivity|]. intros [H|H]; [congruence|tauto].
        -- intros [H Hin]. destruct raw as [|x raw]; simpl in H.
           ++ injection H as -> _. congruence.
           ++ injection H as -> H.
              assert (Some (r, p) = Some (raw, post)) as [= -> ->]; [|reflexivity].
              apply IH. split; [assumption|]. intros Hr. apply Hin. now right.
      * split; [discriminate|]. intros [H Hin].
        destruct raw as [|x raw]; simpl in H.
        -- injection H as -> _. congruence.
        -- injection H as -> H. exfalso.
           assert (None = Some (raw, post)) by (apply IH; split; [assumption|];
             intros Hr; apply Hin; now right).
           discriminate.
Qed.

(** The group [([^\]]+)] followed by the bracket takes the whole run up
    to the first closing bracket, whatever has been taken before. *)
Lemma greedy_group s : forall least taken,
  greedy (NotChr rbracket) least taken s
    (fun t rest => match_here [Chr rbracket] rest t)
  = match value_run s with
    | Some (raw, _) =>
        if (least <=? length raw)%nat then Some (taken ++ raw) else None
    | None => None
    end.
Proof.
  induction s as [|c s IH]; intros least taken.
  - simpl. now destruct least.
  - cbn [greedy value_run cls_has].
    destruct (N.eqb_spec c rbracket) as [->|Hc]; cbn [negb].
    + destruct least; simpl; [now rewrite app_nil_r | reflexivity].
    + rewrite IH. destruct (value_run s) as [[r p]|].
      * destruct least as [|n]; cbn [pred length Nat.leb].
        -- now rewrite <- app_assoc.
        -- destruct (n <=? length r)%nat; [now rewrite <- app_assoc | reflexivity].
      * destruct least; simpl; [|reflexivity].
        destruct (N.eqb_spec c rbracket); [contradiction | reflexivity].
Qed.

Lemma group_at s :
  greedy (NotChr rbracket) 1 [] s (fun t rest => match_here [Chr rbracket] rest t)
  = match value_run s with
    | Some (c :: raw, _) => Some (c :: raw)
    | _ => None
    end.
Proof.
  rewrite greedy_group. destruct (value_run s) as [[[|c r] p]|]; reflexivity.
Qed.

Lemma greedy_space s : forall taken,
  option_map strip
    (greedy Space 0 taken s
       (fun _ rest =>
          greedy (NotChr rbracket) 1 [] rest
            (fun t rest' => match_here [Chr rbracket] rest' t)))
  = match value_run s with
    | Some (c :: raw, _) => Some (strip (c :: raw))
    | _ => None
    end.
Proof.
  induction s as [|c s IH]; intros taken.
  - reflexivity.
  - cbn [greedy cls_has pred].
    assert (Hstop :
      option_map strip
        (greedy (NotChr rbracket) 1 [] (c :: s)
           (fun t rest' => match_here [Chr rbracket] rest' t))
      = match value_run (c :: s) with
        | Some (x :: raw, _) => Some (strip (x :: raw))
        | _ => None
        end).
    { rewrite group_at. now destruct (value_run (c :: s)) as [[[|x r] p]|]. }
    destruct (isspace c) eqn:Hc; [|exact Hstop].
    specialize (IH (taken ++ [c])).
    destruct (greedy Space 0 (taken ++ [c]) s _) as [r|] eqn:E; [|exact Hstop].
    cbn [option_map] in IH. cbn [option_map value_run].
    destruct (N.eqb_spec c rbracket) as [->|_]; [discriminate|].
    destruct (value_run s) as [[[|x r'] p]|]; try discriminate.
    injection IH as IH. now rewrite strip_blank_cons, IH.
Qed.

Lemma match_tail s g :
  option_map strip (match_here tag_tail s g)
  = match value_run s with
    | Some (c :: raw, _) => Some (strip (c :: raw))
    | _ => None
    end.
Proof. exact (greedy_space s []). Qed.

Lemma match_here_literal l p s g :
  match_here (List.map Chr l ++ p) (l ++ s) g = match_here p s g.
Proof.
  induction l as [|c l IH]; simpl; [reflexivity|].
  now rewrite N.eqb_refl.
Qed.

Lemma match_here_literal_inv l p : forall s g r,
  match_here (List.map Chr l ++ p) s g = Some r ->
  exists s', s = l ++ s' /\ match_here p s' g = Some r.
Proof.
  induction l as [|c l IH]; intros s g r; simpl.
  - intros H. now exists s.
  - destruct s as [|x s]; [discriminate|].
    destruct (N.eqb_spec x c) as [->|]; [|discriminate].
    intros H. destruct (IH _ _ _ H) as (s' & -> & H'). now exists s'.
Qed.

(** The pattern matches at the head of a text exactly when a tag starts
    there, and the trimmed group is the trimmed value of that tag. *)
Lemma match_tag_here name raw post :
  raw <> [] -> ~ In rbracket raw ->
  exists g,
    match_here (tag_pattern name) (tag_open name ++ raw ++ rbracket :: post) []
    = Some g
    /\ strip g = strip raw.
Proof.
  intros Hne Hin. unfold tag_pattern, tag_open.
  rewrite match_here_literal.
  pose proof (match_tail (raw ++ rbracket :: post) []) as H.
  assert (E : value_run (raw ++ rbracket :: post) = Some (raw, post))
    by now apply value_run_spec.
  rewrite E in H. destruct raw as [|c raw]; [contradiction|].
  destruct (match_here tag_tail _ _) as [g|]; [|discriminate].
  injection H as H. now exists g.
Qed.

Lemma match_tag_here_inv name s g :
  match_here (tag_pattern name) s [] = Some g ->
  exists raw post,
    s = tag_open name ++ raw ++ rbracket :: post
    /\ raw <> [] /\ ~ In rbracket raw /\ strip g = strip raw.
Proof.
  unfold tag_pattern, tag_open. intros H.
  apply match_here_literal_inv in H as (s' & -> & H).
  pose proof (match_tail s' []) as T. rewrite H in T. cbn [option_map] in T.
  destruct (value_run s') as [[[|c raw] post]|] eqn:E; try discriminate.
  apply value_run_spec in E as [-> Hin]. injection T as T.
  exists (c :: raw), post. repeat split; [discriminate | assumption | assumption].
Qed.

Lemma search_some p : forall txt g,
  search p txt = Some g ->
  exists pre s,
    txt = pre ++ s /\ match_here p s [] = Some g
    /\ forall pre' s', txt = pre' ++ s' -> (length pre' < length pre)%nat ->
                       match_here p s' [] = None.
Proof.
  induction txt as [|c txt IH]; intros g; simpl.
  - destruct (match_here p [] []) as [r|] eqn:E; [|discriminate].
    intros [= <-]. exists [], []. repeat split; [assumption|].
    intros pre' s' _ Hlt. simpl in Hlt. lia.
  - destruct (match_here p (c :: txt) []) as [r|] eqn:E.
    + intros [= <-]. exists [], (c :: txt). repeat split; [assumption|].
      intros pre' s' _ Hlt. simpl in Hlt. lia.
    + intros H. destruct (IH _ H) as (pre & s & -> & Hm & Hmin).
      exists (c :: pre), s. repeat split; [assumption|].
      intros [|x pre'] s' Heq Hlt; simpl in Heq.
      * now subst s'.
      * injection Heq as -> Heq. apply (Hmin pre' s' Heq). simpl in Hlt. lia.
Qed.

Lemma search_none p : forall txt,
  search p txt = None ->
  forall pre s, txt = pre ++ s -> match_here p s [] = None.
Proof.
  induction txt as [|c txt IH]; simpl.
  - destruct (match_here p [] []) eqn:E; [discriminate|].
    intros _ pre s Heq. symmetry in Heq. apply app_eq_nil in Heq as [_ ->].
    assumption.
  - destruct (match_here p (c :: txt) []) eqn:E; [discriminate|].
    intros H [|x pre] s Heq; simpl in Heq.
    + now subst s.
    + injection Heq as _ Heq. now apply (IH H pre s).
Qed.

(** [re.search] with a tag pattern finds nothing exactly in the texts
    without such a tag. *)
Lemma search_tag_none name text :
  search (tag_pattern name) text = None <-> ~ has_tag name text.
Proof.
  split.
  - intros H (pre & raw & post & -> & Hne & Hin).
    pose proof (search_none _ _ H pre _ eq_refl) as Hm.
    destruct (match_tag_here name raw post Hne Hin) as (g & Hg & _).
    congruence.
  - intros Hno. destruct (search (tag_pattern name) text) as [g|] eqn:E;
      [|reflexivity].
    exfalso. apply Hno.
    destruct (search_some _ _ _ E) as (pre & s & -> & Hm & _).
    destruct (match_tag_here_inv _ _ _ Hm) as (raw & post & -> & Hne & Hin & _).
    now exists pre, raw, post.
Qed.

(** It finds the first tag, and the trimmed group is its trimmed value. *)
Lemma search_first_tag name text raw :
  first_tag name text raw ->
  exists g, search (tag_pattern name) text = Some g /\ strip g = strip raw.
Proof.
  intros (pre & post & (Htext & Hne & Hin) & Hfirst).
  destruct (match_tag_here name raw post Hne Hin) as (g0 & Hg0 & _).
  destruct (search (tag_pattern name) text) as [g|] eqn:E.
  - exists g. split; [reflexivity|].
    destruct (search_some _ _ _ E) as (pre1 & s1 & Htext1 & Hm & Hmin).
    destruct (match_tag_here_inv _ _ _ Hm) as (raw1 & post1 & -> & Hne1 & Hin1 & Hs).
    assert (Hle : (length pre <= length pre1)%nat).
    { apply (Hfirst pre1 raw1 post1). now repeat split. }
    assert (Hge : ~ (length pre < length pre1)%nat).
    { intros Hlt. rewrite (Hmin pre _ Htext Hlt) in Hg0. discriminate. }
    assert (Hlen : length pre = length pre1) by lia.
    rewrite Htext in Htext1.
    apply app_inj_1 in Htext1 as [_ Htail]; [|assumption].
    apply app_inv_head in Htail.
    assert (Some (raw, post) = Some (raw1, post1)) as [= <- <-]; [|assumption].
    rewrite <- (proj2 (value_run_spec _ raw post) (conj eq_refl Hin)).
    rewrite Htail. now apply value_run_spec.
  - rewrite (search_none _ _ E pre _ Htext) in Hg0. discriminate.
Qed.

(** ** Config Extractor *)

Lemma field_rule_search name default txt v :
  v = match search (tag_pattern name) txt with
      | Some g => strip g
      | None => default
      end ->
  field_rule name default txt v.
Proof.
  intros ->. split.
  - intros H. apply search_tag_none in H. now rewrite H.
  - intros raw H. destruct (search_first_tag _ _ _ H) as (g & -> & Hg).
    exact Hg.
Qed.

(** The configuration after the loop over the patterns, field by field:
    every key is parsed on its own. *)
Lemma parsed_fields txt :
  let found name default :=
    match search (tag_pattern name) txt with
    | Some g => strip g
    | None => default
    end in
  let c := fold_left (parse_tag txt) patterns default_config in
  subject c = found (lit "SUBJECT") (lit "Physics")
  /\ chapter c = found (lit "CHAPTER") (lit "General")
  /\ lesson c = found (lit "LESSON") (lit "Introduction")
  /\ level c = found (lit "LEVEL") (lit "High School")
  /\ language c = found (lit "LANGUAGE") (lit "en")
  /\ student c = found (lit "STUDENT") (lit "Student")
  /\ competence c = [found (lit "COMPETENCE") default_competence].
Proof.
  unfold patterns. cbn [fold_left]. unfold parse_tag. cbn [fst snd].
  destruct (search (tag_pattern (lit "SUBJECT")) txt),
    (search (tag_pattern (lit "CHAPTER")) txt),
    (search (tag_pattern (lit "LESSON")) txt),
    (search (tag_pattern (lit "LEVEL")) txt),
    (search (tag_pattern (lit "LANGUAGE")) txt),
    (search (tag_pattern (lit "STUDENT")) txt),
    (search (tag_pattern (lit "COMPETENCE")) txt);
    repeat split; reflexivity.
Qed.

(** The last step touches the competence only. *)
Lemma extract_text_fields msgs :
  let c := fold_left (parse_tag (system_content msgs)) patterns default_config in
  let c' := extract_config_from_system_prompt msgs in
  subject c' = subject c /\ chapter c' = chapter c /\ lesson c' = lesson c
  /\ level c' = level c /\ language c' = language c /\ student c' = student c.
Proof.
  cbv zeta. unfold extract_config_from_system_prompt.
  destruct (_ && _); repeat split; reflexivity.
Qed.

Lemma extract_competence msgs :
  let c := fold_left (parse_tag (system_content msgs)) patterns default_config in
  competence (extract_config_from_system_prompt msgs)
  = if bool_decide (competence c = [default_competence]) && truthy (lesson c)
    then [lit "Understanding " ++ lesson c]
    else competence c.
Proof.
  cbv zeta. unfold extract_config_from_system_prompt.
  destruct (_ && _); reflexivity.
Qed.

Lemma system_content_absent msgs :
  Forall (fun m => role m <> lit "system") msgs -> system_content msgs = [].
Proof.
  unfold system_content. induction 1 as [|m msgs Hm _ IH]; [reflexivity|].
  simpl. now rewrite bool_decide_eq_false_2.
Qed.

(** Each text field follows the rule of its tag. *)
Lemma text_field_rules msgs :
  let c := extract_config_from_system_prompt msgs in
  let txt := system_content msgs in
  field_rule (lit "SUBJECT") (lit "Physics") txt (subject c)
  /\ field_rule (lit "CHAPTER") (lit "General") txt (chapter c)
  /\ field_rule (lit "LESSON") (lit "Introduction") txt (lesson c)
  /\ field_rule (lit "LEVEL") (lit "High School") txt (level c)
  /\ field_rule (lit "LANGUAGE") (lit "en") txt (language c)
  /\ field_rule (lit "STUDENT") (lit "Student") txt (student c).
Proof.
  cbv zeta.
  destruct (extract_text_fields msgs) as (E1 & E2 & E3 & E4 & E5 & E6).
  destruct (parsed_fields (system_content msgs)) as (P1 & P2 & P3 & P4 & P5 & P6 & _).
  cbv zeta in *.
  repeat match goal with |- _ /\ _ => split end;
    apply field_rule_search; congruence.
Qed.

(** C6: the Config Extractor is a total function of the message list.
    Each of the six text fields of the configuration it returns follows
    the rule of its tag: the default ("Physics", "General",
    "Introduction", "High School", "en", "Student") when the system
    content has no such tag, the trimmed value of the first such tag
    otherwise; the competence is a list of one text; and a message list
    without a system message (the empty one among them) gives the
    defaults throughout. *)
Theorem extract_config_is_total_with_defaults (msgs : list Message) :
  let c := extract_config_from_system_prompt msgs in
  let txt := system_content msgs in
  field_rule (lit "SUBJECT") (lit "Physics") txt (subject c)
  /\ field_rule (lit "CHAPTER") (lit "General") txt (chapter c)
  /\ field_rule (lit "LESSON") (lit "Introduction") txt (lesson c)
  /\ field_rule (lit "LEVEL") (lit "High School") txt (level c)
  /\ field_rule (lit "LANGUAGE") (lit "en") txt (language c)
  /\ field_rule (lit "STUDENT") (lit "Student") txt (student c)
  /\ (exists x, competence c = [x])
  /\ (Forall (fun m => role m <> lit "system") msgs ->
      c = {| subject := lit "Physics"; chapter := lit "General";
             lesson := lit "Introduction"; level := lit "High School";
             language := lit "en"; student := lit "Student";
             competence := [lit "Understanding Introduction"] |}).
Proof.
  cbv zeta.
  destruct (text_field_rules msgs) as (R1 & R2 & R3 & R4 & R5 & R6).
  destruct (parsed_fields (system_content msgs)) as (_ & _ & _ & _ & _ & _ & P7).
  cbv zeta in *.
  repeat match goal with |- _ /\ _ => split end; try assumption.
  - rewrite extract_competence. cbv zeta. rewrite P7.
    destruct (_ && _); eauto.
  - intros H. unfold extract_config_from_system_prompt.
    rewrite (system_content_absent _ H). reflexivity.
Qed.

(** A text with a tag has a first one, and [re.search] returns it. *)
Lemma search_some_first_tag name txt g :
  search (tag_pattern name) txt = Some g ->
  exists raw, first_tag name txt raw /\ strip g = strip raw.
Proof.
  intros E. destruct (search_some _ _ _ E) as (pre & s & -> & Hm & Hmin).
  destruct (match_tag_here_inv _ _ _ Hm) as (raw & post & -> & Hne & Hin & Hs).
  exists raw. split; [|assumption].
  exists pre, post. split; [now repeat split|].
  intros pre' raw' post' (Heq & Hne' & Hin').
  destruct (Nat.le_gt_cases (length pre) (length pre')) as [|Hlt]; [assumption|].
  destruct (match_tag_here name raw' post' Hne' Hin') as (g' & Hg' & _).
  rewrite (Hmin pre' _ Heq Hlt) in Hg'. discriminate.
Qed.

Lemma has_tag_first name txt :
  has_tag name txt <-> exists raw, first_tag name txt raw.
Proof.
  split.
  - intros H. destruct (search (tag_pattern name) txt) as [g|] eqn:E.
    + destruct (search_some_first_tag _ _ _ E) as (raw & Hraw & _). now exists raw.
    + now apply search_tag_none in E.
  - intros (raw & pre & post & H & _). now exists pre, raw, post.
Qed.

Lemma not_in_run raw :
  forallb (fun c => negb (c =? rbracket)) raw = true -> ~ In rbracket raw.
Proof.
  intros H Hin. rewrite forallb_forall in H. specialize (H _ Hin).
  now rewrite N.eqb_refl in H.
Qed.

(** The example of the specification: [[SUBJECT: Chemistry]] anywhere in
    the system content. *)
Example subject_chemistry :
  subject (extract_config_from_system_prompt
             [ {| role := lit "user"; content := lit "hello" |};
               {| role := lit "system";
                  content := lit "You are a tutor. [SUBJECT: Chemistry] Be kind." |} ])
  = lit "Chemistry".
Proof. vm_compute. reflexivity. Qed.

(** A tag whose value is only blanks gives the empty text, and a tag
    that never closes is no tag. *)
Example subject_malformed :
  subject (extract_config_from_system_prompt
             [ {| role := lit "system"; content := lit "[SUBJECT:  ] [LEVEL: x" |} ])
  = []
  /\ level (extract_config_from_system_prompt
              [ {| role := lit "system"; content := lit "[SUBJECT:  ] [LEVEL: x" |} ])
     = lit "High School".
Proof. vm_compute. split; reflexivity. Qed.

(** A competence tag is honoured whenever its trimmed value is not the
    default text of the extractor. *)
Lemma competence_tag_honoured msgs raw :
  first_tag (lit "COMPETENCE") (system_content msgs) raw ->
  strip raw <> default_competence ->
  competence (extract_config_from_system_prompt msgs) = [strip raw].
Proof.
  intros Hfirst Hne. rewrite extract_competence. cbv zeta.
  destruct (parsed_fields (system_content msgs)) as (_ & _ & _ & _ & _ & _ & P7).
  cbv zeta in P7. rewrite P7.
  destruct (search_first_tag _ _ _ Hfirst) as (g & -> & ->).
  rewrite bool_decide_eq_false_2; [reflexivity|].
  intros [= H]. contradiction.
Qed.

(** C4: a competence tag whose value is the extractor's own default text,
    [[COMPETENCE: Understanding the core concepts]], is the first
    competence tag of the prompt and yet the competence returned is the
    one made from the lesson, ["Understanding Introduction"], not the
    value of the tag. *)
Theorem competence_tag_equal_to_default_is_overwritten :
  let msgs :=
    [ {| role := lit "system";
         content := lit "[COMPETENCE: Understanding the core concepts]" |} ] in
  first_tag (lit "COMPETENCE") (system_content msgs)
    (lit " Understanding the core concepts")
  /\ strip (lit " Understanding the core concepts")
     = lit "Understanding the core concepts"
  /\ competence (extract_config_from_system_prompt msgs)
     = [lit "Understanding Introduction"].
Proof.
  cbv zeta. split; [|split; vm_compute; reflexivity].
  exists [], []. split.
  - split; [vm_compute; reflexivity|]. split; [discriminate|].
    apply not_in_run. vm_compute. reflexivity.
  - intros pre' raw' post' _. simpl. lia.
Qed.

(** C7, as the code has it: without a competence tag in the system
    prompt the competence is the one-element list made of "Understanding "
    and the lesson (the lesson of the tag when there is one) provided the
    lesson is not empty; with an empty lesson it stays the default
    ["Understanding the core concepts"]. *)
Theorem competence_from_lesson (msgs : list Message) :
  ~ has_tag (lit "COMPETENCE") (system_content msgs) ->
  let c := extract_config_from_system_prompt msgs in
  field_rule (lit "LESSON") (lit "Introduction") (system_content msgs) (lesson c)
  /\ (lesson c <> [] -> competence c = [lit "Understanding " ++ lesson c])
  /\ (lesson c = [] -> competence c = [lit "Understanding the core concepts"]).
Proof.
  intros Hno. cbv zeta.
  split; [apply (text_field_rules msgs)|].
  rewrite extract_competence. cbv zeta.
  destruct (extract_text_fields msgs) as (_ & _ & -> & _).
  destruct (parsed_fields (system_content msgs)) as (_ & _ & _ & _ & _ & _ & P7).
  cbv zeta in P7. rewrite P7.
  apply search_tag_none in Hno. rewrite Hno.
  rewrite bool_decide_eq_true_2 by reflexivity. cbn [andb].
  split; intros H.
  - destruct (lesson _); [contradiction | reflexivity].
  - now rewrite H.
Qed.

Lemma competence_from_lesson_waves :
  let msgs := [ {| role := lit "system"; content := lit "Today: [LESSON: Waves]" |} ] in
  ~ has_tag (lit "COMPETENCE") (system_content msgs)
  /\ lesson (extract_config_from_system_prompt msgs) = lit "Waves"
  /\ competence (extract_config_from_system_prompt msgs)
     = [lit "Understanding Waves"].
Proof.
  cbv zeta.
  assert (Hno : ~ has_tag (lit "COMPETENCE")
                  (system_content
                     [ {| role := lit "system";
                          content := lit "Today: [LESSON: Waves]" |} ])).
  { apply search_tag_none. vm_compute. reflexivity. }
  split; [exact Hno|]. split; [vm_compute; reflexivity|].
  apply (competence_from_lesson _ Hno). vm_compute. discriminate.
Defined.

(** C7 as stated fails on a lesson tag whose value is blank: there is no
    competence tag, the lesson is the empty text, and the competence is
    the default one, not ["Understanding "]. *)
Lemma competence_from_empty_lesson :
  let msgs := [ {| role := lit "system"; content := lit "[LESSON: ]" |} ] in
  ~ has_tag (lit "COMPETENCE") (system_content msgs)
  /\ lesson (extract_config_from_system_prompt msgs) = []
  /\ competence (extract_config_from_system_prompt msgs)
     = [lit "Understanding the core concepts"]
  /\ competence (extract_config_from_system_prompt msgs)
     <> [lit "Understanding " ++ lesson (extract_config_from_system_prompt msgs)].
Proof.
  cbv zeta. split; [apply search_tag_none; vm_compute; reflexivity|].
  split; [vm_compute; reflexivity|]. split; [vm_compute; reflexivity|].
  vm_compute. discriminate.
Qed.

(** ** Conversation Identity *)

Lemma length_flat_map_hex (bs : list Z) :
  length (flat_map hex_byte bs) = (2 * length bs)%nat.
Proof. induction bs as [|b bs IH]; simpl; [reflexivity | rewrite IH; lia]. Qed.

Lemma length_le_bytes n x : length (le_bytes n x) = n.
Proof. revert x. induction n as [|n IH]; intros x; simpl; [reflexivity | now rewrite IH]. Qed.

Lemma length_md5_digest msg : length (md5_digest msg) = 16%nat.
Proof.
  unfold md5_digest.
  destruct (fold_left md5_block _ md5_init) as [[[a b] c] d].
  cbn [flat_map]. rewrite !length_app, !length_le_bytes. reflexivity.
Qed.

(** An MD5 hex digest has 32 characters. *)
Lemma length_md5_hexdigest msg : length (md5_hexdigest msg) = 32%nat.
Proof.
  unfold md5_hexdigest. now rewrite length_flat_map_hex, length_md5_digest.
Qed.

Lemma le_bytes_range n : forall x, Forall (fun b => (0 <= b < 256)%Z) (le_bytes n x).
Proof.
  induction n as [|n IH]; intros x; simpl; constructor; [|apply IH].
  apply Z.mod_pos_bound. lia.
Qed.

Lemma hex_digit_char x : (0 <= x < 16)%Z -> hex_char (hex_digit x).
Proof.
  intros H. unfold hex_char, hex_digit.
  destruct (Z.ltb_spec x 10); lia.
Qed.

Lemma md5_hexdigest_hex msg : Forall hex_char (md5_hexdigest msg).
Proof.
  unfold md5_hexdigest, md5_digest.
  destruct (fold_left md5_block _ md5_init) as [[[a b] c] d].
  apply Forall_flat_map.
  assert (H : Forall (fun b => (0 <= b < 256)%Z) (flat_map (le_bytes 4) [a; b; c; d])).
  { apply Forall_flat_map.
    repeat (apply List.Forall_cons; [apply le_bytes_range|]).
    apply List.Forall_nil. }
  revert H. apply List.Forall_impl. intros x Hx.
  unfold hex_byte.
  apply List.Forall_cons; [|apply List.Forall_cons; [|apply List.Forall_nil]];
    apply hex_digit_char.
  - split; [apply Z.div_pos; lia | apply Z.div_lt_upper_bound; lia].
  - apply Z.mod_pos_bound. lia.
Qed.

(** *** UTF-8 is injective on text *)

Section Utf8.
Local Open Scope Z_scope.

Lemma land_disjoint a x k :
  0 <= k -> 0 <= x < 2 ^ k -> Z.land (a * 2 ^ k) x = 0.
Proof.
  intros Hk [Hx0 Hx]. apply Z.bits_inj'. intros n Hn.
  rewrite Z.land_spec, Z.bits_0.
  destruct (Z.lt_ge_cases n k) as [Hlt|Hge].
  - rewrite Z.mul_pow2_bits_low by lia. reflexivity.
  - assert (Z.testbit x n = false) as ->; [|apply Bool.andb_false_r].
    destruct (Z.eq_dec x 0) as [->|Hne]; [apply Z.bits_0|].
    apply Z.bits_above_log2; [lia|].
    apply Z.lt_le_trans with k; [|lia].
    apply Z.log2_lt_pow2; lia.
Qed.

Lemma lor_disjoint a x k :
  0 <= k -> 0 <= x < 2 ^ k -> Z.lor (a * 2 ^ k) x = a * 2 ^ k + x.
Proof.
  intros Hk Hx. pose proof (land_disjoint a x k Hk Hx) as H.
  rewrite <- Z.lxor_lor by exact H. symmetry. now apply Z.add_nocarry_lxor.
Qed.

Lemma utf8_arith_eq c : (c < 0x200000)%N -> utf8 c = utf8_arith (Z.of_N c).
Proof.
  intros Hc. unfold utf8, utf8_arith. cbv zeta.
  assert (Hz : 0 <= Z.of_N c < 0x200000) by lia.
  set (z := Z.of_N c) in *. clearbody z.
  assert (L : forall y, Z.land y 0x3F = y mod 64)
    by (intros y; exact (Z.land_ones y 6 ltac:(lia))).
  assert (L7 : forall y, Z.land y 0x07 = y mod 8)
    by (intros y; exact (Z.land_ones y 3 ltac:(lia))).
  assert (S6 : Z.shiftr z 6 = z / 64) by (apply (Z.shiftr_div_pow2 z 6); lia).
  assert (S12 : Z.shiftr z 12 = z / 4096) by (apply (Z.shiftr_div_pow2 z 12); lia).
  assert (S18 : Z.shiftr z 18 = z / 262144) by (apply (Z.shiftr_div_pow2 z 18); lia).
  assert (O80 : forall y, 0 <= y < 64 -> Z.lor 0x80 y = 128 + y)
    by (intros y Hy; exact (lor_disjoint 2 y 6 ltac:(lia) Hy)).
  assert (OC0 : forall y, 0 <= y < 32 -> Z.lor 0xC0 y = 192 + y)
    by (intros y Hy; exact (lor_disjoint 6 y 5 ltac:(lia) Hy)).
  assert (OE0 : forall y, 0 <= y < 16 -> Z.lor 0xE0 y = 224 + y)
    by (intros y Hy; exact (lor_disjoint 14 y 4 ltac:(lia) Hy)).
  assert (OF0 : forall y, 0 <= y < 8 -> Z.lor 0xF0 y = 240 + y)
    by (intros y Hy; exact (lor_disjoint 30 y 3 ltac:(lia) Hy)).
  rewrite !L, L7, S6, S12, S18.
  destruct (z <? 0x80) eqn:E1; [reflexivity|].
  destruct (z <? 0x800) eqn:E2.
  { apply Z.ltb_lt in E2. rewrite O80 by (apply Z.mod_pos_bound; lia).
    rewrite OC0 by (Z.div_mod_to_equations; lia).
    reflexivity. }
  destruct (z <? 0x10000) eqn:E3.
  { apply Z.ltb_lt in E3. rewrite !O80 by (apply Z.mod_pos_bound; lia).
    rewrite OE0 by (Z.div_mod_to_equations; lia).
    reflexivity. }
  rewrite !O80 by (apply Z.mod_pos_bound; lia).
  rewrite OF0 by (apply Z.mod_pos_bound; lia).
  reflexivity.
Qed.

Lemma utf8_arith_head z :
  0 <= z < 0x110000 ->
  exists b rest,
    utf8_arith z = b :: rest /\ length rest = utf8_following b.
Proof.
  intros Hz. unfold utf8_arith, utf8_following.
  destruct (Z.ltb_spec z 0x80).
  { eexists _, _. split; [reflexivity|].
    destruct (Z.ltb_spec z 0x80); [reflexivity | lia]. }
  destruct (Z.ltb_spec z 0x800).
  { eexists _, _. split; [reflexivity|].
    destruct (Z.ltb_spec (192 + z / 64) 0x80); [Z.div_mod_to_equations; lia|].
    destruct (Z.ltb_spec (192 + z / 64) 0xE0); [reflexivity|].
    Z.div_mod_to_equations; lia. }
  destruct (Z.ltb_spec z 0x10000).
  { eexists _, _. split; [reflexivity|].
    destruct (Z.ltb_spec (224 + z / 4096) 0x80); [Z.div_mod_to_equations; lia|].
    destruct (Z.ltb_spec (224 + z / 4096) 0xE0); [Z.div_mod_to_equations; lia|].
    destruct (Z.ltb_spec (224 + z / 4096) 0xF0); [reflexivity|].
    Z.div_mod_to_equations; lia. }
  eexists _, _. split; [reflexivity|].
  destruct (Z.ltb_spec (240 + (z / 262144) mod 8) 0x80); [Z.div_mod_to_equations; lia|].
  destruct (Z.ltb_spec (240 + (z / 262144) mod 8) 0xE0); [Z.div_mod_to_equations; lia|].
  destruct (Z.ltb_spec (240 + (z / 262144) mod 8) 0xF0); [Z.div_mod_to_equations; lia|].
  reflexivity.
Qed.

Lemma utf8_arith_inj z1 z2 :
  0 <= z1 < 0x110000 -> 0 <= z2 < 0x110000 ->
  utf8_arith z1 = utf8_arith z2 -> z1 = z2.
Proof.
  intros H1 H2. unfold utf8_arith.
  destruct (Z.ltb_spec z1 0x80), (Z.ltb_spec z2 0x80);
    [intros [= ->]; reflexivity | | |].
  1,2: destruct (Z.ltb_spec z2 0x800), (Z.ltb_spec z1 0x800);
       try destruct (Z.ltb_spec z2 0x10000); try destruct (Z.ltb_spec z1 0x10000);
       intros [= E]; exfalso; Z.div_mod_to_equations; lia.
  destruct (Z.ltb_spec z1 0x800), (Z.ltb_spec z2 0x800);
    try destruct (Z.ltb_spec z1 0x10000); try destruct (Z.ltb_spec z2 0x10000);
    intros E; injection E; intros; Z.div_mod_to_equations; lia.
Qed.

End Utf8.

Lemma utf8_inj c1 c2 :
  c1 < 0x110000 -> c2 < 0x110000 -> utf8 c1 = utf8 c2 -> c1 = c2.
Proof.
  intros H1 H2. rewrite !utf8_arith_eq by lia. intros E.
  apply N2Z.inj. apply utf8_arith_inj; [lia | lia | exact E].
Qed.

Lemma utf8_head c :
  c < 0x110000 ->
  exists b rest, utf8 c = b :: rest /\ length rest = utf8_following b.
Proof.
  intros H. rewrite utf8_arith_eq by lia. apply utf8_arith_head. lia.
Qed.

(** Different texts are hashed from different bytes. *)
Lemma encode_inj s1 : forall s2,
  valid_text s1 -> valid_text s2 -> encode s1 = encode s2 -> s1 = s2.
Proof.
  unfold valid_text.
  induction s1 as [|c1 s1 IH]; intros [|c2 s2] V1 V2 E.
  - reflexivity.
  - apply Forall_cons in V2 as [V2 _].
    destruct (utf8_head c2 V2) as (b & rest & Hb & _).
    simpl in E. rewrite Hb in E. discriminate.
  - apply Forall_cons in V1 as [V1 _].
    destruct (utf8_head c1 V1) as (b & rest & Hb & _).
    simpl in E. rewrite Hb in E. discriminate.
  - apply Forall_cons in V1 as [V1 V1']. apply Forall_cons in V2 as [V2 V2'].
    destruct (utf8_head c1 V1) as (b1 & r1 & Hb1 & L1).
    destruct (utf8_head c2 V2) as (b2 & r2 & Hb2 & L2).
    simpl in E. rewrite Hb1, Hb2 in E. simpl in E. injection E as <- E.
    apply app_inj_1 in E as [<- E]; [|congruence].
    f_equal; [|now apply IH].
    apply utf8_inj; [assumption | assumption | congruence].
Qed.

(** Only the system-role messages matter to the system content. *)
Lemma system_content_filter msgs :
  system_content (List.filter (fun m => bool_decide (role m = lit "system")) msgs)
  = system_content msgs.
Proof.
  unfold system_content. induction msgs as [|m msgs IH]; [reflexivity|].
  simpl. destruct (bool_decide (role m = lit "system")) eqn:E; simpl.
  - now rewrite E.
  - exact IH.
Qed.

(** The system content is the content of the first system-role message. *)
Lemma system_content_first before m after :
  Forall (fun x => role x <> lit "system") before ->
  role m = lit "system" ->
  system_content (before ++ m :: after) = content m.
Proof.
  unfold system_content. induction 1 as [|x before Hx _ IH]; intros Hm; simpl.
  - now rewrite bool_decide_eq_true_2.
  - rewrite bool_decide_eq_false_2 by assumption. now apply IH.
Qed.

(** C5: the conversation key is a function of the system content alone,
    with nothing of the process in it.  Two message lists with the same
    system content, whatever their other turns, have the same key; the
    key has 32 characters, all hexadecimal digits; without a system
    message it is the MD5 of the empty text; and two different system
    contents are hashed from different bytes, so that their keys differ
    unless MD5 itself collides on them. *)
Theorem conversation_key_of_system_content_only (msgs1 msgs2 : list Message) :
  system_content msgs1 = system_content msgs2 ->
  get_conversation_id msgs1 = get_conversation_id msgs2
  /\ length (get_conversation_id msgs1) = 32%nat
  /\ Forall hex_char (get_conversation_id msgs1)
  /\ (Forall (fun m => role m <> lit "system") msgs1 ->
      get_conversation_id msgs1 = lit "d41d8cd98f00b204e9800998ecf8427e")
  /\ (forall msgs3,
        valid_text (system_content msgs1) ->
        valid_text (system_content msgs3) ->
        system_content msgs1 <> system_content msgs3 ->
        get_conversation_id msgs1 = md5_hexdigest (encode (system_content msgs1))
        /\ get_conversation_id msgs3 = md5_hexdigest (encode (system_content msgs3))
        /\ encode (system_content msgs1) <> encode (system_content msgs3)).
Proof.
  intros H. unfold get_conversation_id. rewrite H.
  split; [reflexivity|]. split; [apply length_md5_hexdigest|].
  split; [apply md5_hexdigest_hex|]. split.
  - intros Hno. rewrite <- H, (system_content_absent _ Hno).
    vm_compute. reflexivity.
  - intros msgs3 V1 V3 Hne. rewrite <- H in *.
    split; [reflexivity|]. split; [reflexivity|].
    intros E. apply Hne. now apply encode_inj.
Qed.

Lemma conversation_key_witness :
  let msgs1 :=
    [ {| role := lit "system"; content := lit "[LESSON: Waves]" |};
      {| role := lit "user"; content := lit "What is a wave?" |} ] in
  let msgs2 :=
    [ {| role := lit "user"; content := lit "Hello" |};
      {| role := lit "system"; content := lit "[LESSON: Waves]" |};
      {| role := lit "assistant"; content := lit "Hi!" |};
      {| role := lit "system"; content := lit "another prompt" |} ] in
  system_content msgs1 = system_content msgs2
  /\ get_conversation_id msgs1 = get_conversation_id msgs2.
Proof.
  cbv zeta. split; [reflexivity|].
  match goal with
  | |- get_conversation_id ?a = get_conversation_id ?b =>
      exact (proj1 (conversation_key_of_system_content_only a b eq_refl))
  end.
Defined.

(** The key is computed by MD5 as [hashlib] does it. *)
Example md5_test_vectors :
  md5_hexdigest (encode (lit "")) = lit "d41d8cd98f00b204e9800998ecf8427e"
  /\ md5_hexdigest (encode (lit "abc")) = lit "900150983cd24fb0d6963f7d28e17f72"
  /\ md5_hexdigest
       (encode (lit "12345678901234567890123456789012345678901234567890123456789012345678901234567890"))
     = lit "57edf4a22be3c955ac49da2e2107b67a".
Proof. vm_compute. repeat split; reflexivity. Qed.

(** Keys do differ: one character more in the system content. *)
Example conversation_key_differs :
  get_conversation_id [ {| role := lit "system"; content := lit "[LESSON: Waves]" |} ]
  <> get_conversation_id [ {| role := lit "system"; content := lit "[LESSON: Waves] " |} ].
Proof. vm_compute. discriminate. Qed.

(** ** Response Translator *)

Lemma split_from_blank gap : blank gap ->
  forall s, split_from [] (gap ++ s) = split_from [] s.
Proof.
  induction 1 as [|c gap Hc _ IH]; intros s; [reflexivity|].
  simpl. now rewrite Hc.
Qed.

Lemma split_from_solid word :
  Forall (fun c => isspace c = false) word ->
  forall acc s, split_from acc (word ++ s) = split_from (acc ++ word) s.
Proof.
  induction 1 as [|c word Hc _ IH]; intros acc s.
  - now rewrite app_nil_r.
  - simpl. rewrite Hc, IH. now rewrite <- app_assoc.
Qed.

(** [split] returns the whitespace-delimited words, and nothing else
    is them. *)
Lemma delimited_unique txt words : delimited txt words -> words = split txt.
Proof.
  unfold split.
  induction 1 as [gap Hgap | gap word rest words Hgap [Hne Hword] Hrest _ IH].
  - rewrite <- (app_nil_r gap), split_from_blank by assumption. reflexivity.
  - rewrite split_from_blank, split_from_solid by assumption.
    cbn [app]. destruct word as [|c word]; [contradiction|].
    destruct Hrest as [-> | (x & rest' & -> & Hx)]; simpl.
    + now rewrite IH.
    + rewrite Hx. f_equal. rewrite IH. simpl. now rewrite Hx.
Qed.

Lemma delimited_exists txt : exists words, delimited txt words.
Proof.
  induction txt as [|c txt [words IH]].
  - exists []. constructor. constructor.
  - destruct (isspace c) eqn:Hc.
    + inversion IH as [gap Hgap | gap word rest ws Hgap Hword Hrest Hws]; subst.
      * exists []. constructor. now constructor.
      * exists (word :: ws).
        apply (delimited_word (c :: gap) word rest ws); try assumption.
        now constructor.
    + assert (Hsolid : solid [c]) by (split; [discriminate | now repeat constructor]).
      inversion IH as [gap Hgap | gap word rest ws Hgap Hword Hrest Hws]; subst.
      * exists [[c]].
        apply (delimited_word [] [c] txt []); try assumption; [constructor|].
        destruct Hgap as [|x gap Hx Hgap]; [now left|].
        right. now exists x, gap.
      * destruct Hgap as [|x gap Hx Hgap].
        -- exists ((c :: word) :: ws).
           apply (delimited_word [] (c :: word) rest ws); try assumption;
             [constructor|].
           destruct Hword as [_ Hword]. split; [discriminate | now constructor].
        -- exists ([c] :: word :: ws).
           apply (delimited_word [] [c] ((x :: gap) ++ word ++ rest) (word :: ws));
             try assumption; [constructor|].
           right. now exists x, (gap ++ word ++ rest).
Qed.

Lemma delimited_split txt : delimited txt (split txt).
Proof.
  destruct (delimited_exists txt) as [words H].
  now rewrite <- (delimited_unique _ _ H).
Qed.

Lemma word_events_map chat_id created model words :
  word_events chat_id created model words
  = List.map (word_event chat_id created model) words.
Proof.
  induction words as [|word words IH]; [reflexivity|].
  cbn [word_events List.map]. now rewrite IH.
Qed.

(** C3: the streaming translator yields, for a reply text whose
    whitespace-delimited words are [words], one event per word, in order,
    each the SSE frame of a chunk with the shared id, creation time and
    model, a delta holding the word and one trailing space, and
    finish_reason null; then one chunk with an empty delta and
    finish_reason "stop"; then the sentinel [data: [DONE]].  The empty
    text has no word and yields the last two events only. *)
Theorem stream_response_framing (w : World) (txt chat_id model : str)
    (words : list str) :
  delimited txt words ->
  let created := int_of_float (clock_response w) in
  stream_response w txt chat_id model
  = List.map (word_event chat_id created model) words
    ++ [stop_event chat_id created model; done_event]
  /\ length (stream_response w txt chat_id model) = (length words + 2)%nat
  /\ (txt = [] ->
      stream_response w txt chat_id model
      = [stop_event chat_id created model; done_event]).
Proof.
  intros H. cbv zeta.
  assert (E : stream_response w txt chat_id model
              = List.map (word_event chat_id (int_of_float (clock_response w)) model) words
                ++ [stop_event chat_id (int_of_float (clock_response w)) model; done_event]).
  { unfold stream_response. rewrite word_events_map, <- (delimited_unique _ _ H).
    reflexivity. }
  split; [exact E|]. split.
  - rewrite E, length_app, length_map. reflexivity.
  - intros ->. rewrite E. apply delimited_unique in H. now subst words.
Qed.

Lemma stream_response_hello_world :
  let w := {| TEACHER_API_URL := lit "http://backend";
              http_post := fun _ _ => Fails [];
              clock_session := 0%Q; clock_response := (3 # 2)%Q;
              uuid4 := lit "id" |} in
  delimited (lit "Hello world") [lit "Hello"; lit "world"]
  /\ stream_response w (lit "Hello world") (lit "id") (lit "ai-teacher")
     = [ word_event (lit "id") 1 (lit "ai-teacher") (lit "Hello");
         word_event (lit "id") 1 (lit "ai-teacher") (lit "world");
         stop_event (lit "id") 1 (lit "ai-teacher");
         done_event ].
Proof.
  cbv zeta.
  assert (H : delimited (lit "Hello world") [lit "Hello"; lit "world"])
    by exact (delimited_split (lit "Hello world")).
  split; [exact H|].
  exact (proj1 (stream_response_framing _ _ (lit "id") (lit "ai-teacher") _ H)).
Defined.

(** ** Backend Client *)

Lemma start_teacher_session_run w cfg st :
  start_teacher_session w cfg st
  = (call_outcome (http_post w (start_url w) (start_payload cfg)) 201,
     after_post st (start_url w) (start_payload cfg)).
Proof.
  unfold start_teacher_session, try_except, bind, post, raise, lift,
    call_outcome, after_post.
  destruct (http_post w _ _) as [r|m]; [|reflexivity].
  destruct (status_code r =? 201)%Z; cbn [negb]; [|reflexivity].
  destruct (response_json r) as [v|e] eqn:E; [reflexivity|].
  unfold response_json in E. destruct (json_body r); [discriminate|].
  now injection E as <-.
Qed.

Lemma send_message_to_teacher_run w sid message st :
  send_message_to_teacher w sid message st
  = (call_outcome (http_post w (message_url w) (message_payload sid message)) 200,
     after_post st (message_url w) (message_payload sid message)).
Proof.
  unfold send_message_to_teacher, try_except, bind, post, raise, lift,
    call_outcome, after_post.
  destruct (http_post w _ _) as [r|m]; [|reflexivity].
  destruct (status_code r =? 200)%Z; cbn [negb]; [|reflexivity].
  destruct (response_json r) as [v|e] eqn:E; [reflexivity|].
  unfold response_json in E. destruct (json_body r); [discriminate|].
  now injection E as <-.
Qed.

Lemma call_outcome_taxonomy o success :
  (forall r, o = Responds r -> status_code r <> success ->
     call_outcome o success = Raise (HTTPException (status_code r) (text r)))
  /\ (forall r, o = Responds r -> status_code r = success ->
        call_outcome o success = response_json r)
  /\ (forall m, o = Fails m -> call_outcome o success = Raise (HTTPError m))
  /\ (forall code detail,
        call_outcome o success = Raise (HTTPException code detail) ->
        exists r, o = Responds r /\ status_code r <> success
                  /\ code = status_code r /\ detail = text r).
Proof.
  repeat split.
  - intros r -> H. simpl. now rewrite (proj2 (Z.eqb_neq _ _) H).
  - intros r -> H. simpl. now rewrite (proj2 (Z.eqb_eq _ _) H).
  - now intros m ->.
  - intros code detail. destruct o as [r|m]; simpl; [|discriminate].
    destruct (Z.eqb_spec (status_code r) success) as [_|Hne].
    + unfold response_json. destruct (json_body r); discriminate.
    + intros [= <- <-]. now exists r.
Qed.

(** C9: StartSession raises an [HTTPException] carrying the status code
    and the raw body exactly when the backend answers with a status other
    than 201, and returns what [response.json()] gives when the status is
    201; SendMessage does the same around 200; a transport failure comes
    out of both as httpx's [HTTPError], another kind of exception. *)
Theorem backend_client_error_taxonomy (w : World) (cfg : Config)
    (sid : json) (message : str) (st : State) :
  let started := fst (start_teacher_session w cfg st) in
  let start_post := http_post w (start_url w) (start_payload cfg) in
  let sent := fst (send_message_to_teacher w sid message st) in
  let message_post := http_post w (message_url w) (message_payload sid message) in
  ((forall r, start_post = Responds r -> status_code r <> 201%Z ->
      started = Raise (HTTPException (status_code r) (text r)))
   /\ (forall r, start_post = Responds r -> status_code r = 201%Z ->
         started = response_json r)
   /\ (forall m, start_post = Fails m -> started = Raise (HTTPError m))
   /\ (forall code detail, started = Raise (HTTPException code detail) ->
         exists r, start_post = Responds r /\ status_code r <> 201%Z
                   /\ code = status_code r /\ detail = text r))
  /\ ((forall r, message_post = Responds r -> status_code r <> 200%Z ->
         sent = Raise (HTTPException (status_code r) (text r)))
      /\ (forall r, message_post = Responds r -> status_code r = 200%Z ->
            sent = response_json r)
      /\ (forall m, message_post = Fails m -> sent = Raise (HTTPError m))
      /\ (forall code detail, sent = Raise (HTTPException code detail) ->
            exists r, message_post = Responds r /\ status_code r <> 200%Z
                      /\ code = status_code r /\ detail = text r))
  /\ (forall m code detail, HTTPError m <> HTTPException code detail).
Proof.
  cbv zeta. rewrite start_teacher_session_run, send_message_to_teacher_run.
  cbn [fst]. split; [apply call_outcome_taxonomy|].
  split; [apply call_outcome_taxonomy|]. discriminate.
Qed.

(** A success status with a body that is not JSON raises the decoder's
    error; a JSON body is returned as it is. *)
Lemma response_json_cases r :
  (forall v, json_body r = Some v -> response_json r = Ok v)
  /\ (json_body r = None -> response_json r = Raise JSONDecodeError).
Proof. unfold response_json. split; [intros v ->|intros ->]; reflexivity. Qed.

(** Both calls make exactly one POST. *)
Lemma backend_calls_post_once w cfg sid message st :
  posted (snd (start_teacher_session w cfg st))
  = posted st ++ [(start_url w, start_payload cfg)]
  /\ sessions (snd (start_teacher_session w cfg st)) = sessions st
  /\ posted (snd (send_message_to_teacher w sid message st))
     = posted st ++ [(message_url w, message_payload sid message)]
  /\ sessions (snd (send_message_to_teacher w sid message st)) = sessions st.
Proof.
  rewrite start_teacher_session_run, send_message_to_teacher_run.
  repeat split.
Qed.

(** ** Request Orchestrator *)

(** The [try] block on a store miss, step by step. *)
Lemma teacher_reply_miss w cfg k um st :
  teacher_reply w cfg k um None st
  = let st1 := after_post st (start_url w) (start_payload cfg) in
    match call_outcome (http_post w (start_url w) (start_payload cfg)) 201 with
    | Raise e => (Raise e, st1)
    | Ok body =>
        match getitem body (lit "session_id") with
        | Raise e => (Raise e, st1)
        | Ok sid =>
            match get body (lit "initial_message") (JStr greeting) with
            | Raise e => (Raise e, st1)
            | Ok first =>
                let st2 :=
                  {| sessions :=
                       <[k := {| session_id := sid; config := cfg;
                                 created := clock_session w;
                                 initial_message := first |}]> (sessions st);
                     posted := posted st1 |} in
                match slice_to 50 first with
                | Raise e => (Raise e, st2)
                | Ok _ => (Ok first, st2)
                end
            end
        end
    end.
Proof.
  unfold teacher_reply, bind. rewrite start_teacher_session_run. cbv zeta.
  destruct (call_outcome _ 201) as [body|e]; [|reflexivity].
  unfold lift.
  destruct (getitem body _) as [sid|e]; [|reflexivity].
  destruct (get body _ _) as [first|e]; [|reflexivity].
  unfold sessions_set. cbn [initial_message sessions posted after_post].
  destruct (slice_to 50 first); reflexivity.
Qed.

(** The [try] block on a store hit. *)
Lemma teacher_reply_hit w cfg k um s st :
  teacher_reply w cfg k um (Some s) st
  = let st1 := after_post st (message_url w) (message_payload (session_id s) um) in
    match call_outcome
            (http_post w (message_url w) (message_payload (session_id s) um)) 200
    with
    | Raise e => (Raise e, st1)
    | Ok body =>
        match get body (lit "teacher_message") (JStr fallback) with
        | Raise e => (Raise e, st1)
        | Ok reply =>
            match slice_to 100 reply with
            | Raise e => (Raise e, st1)
            | Ok _ => (Ok reply, st1)
            end
        end
    end.
Proof.
  unfold teacher_reply, bind. rewrite send_message_to_teacher_run. cbv zeta.
  destruct (call_outcome _ 200) as [body|e]; [|reflexivity].
  unfold lift.
  destruct (get body _ _) as [reply|e]; [|reflexivity].
  destruct (slice_to 100 reply); reflexivity.
Qed.

(** The guarded block never raises: it returns the reply of the block,
    or the apology when the block raised, and keeps the block's state. *)
Lemma guarded_reply_run w cfg k um session st :
  guarded_reply w cfg k um session st
  = (Ok match fst (teacher_reply w cfg k um session st) with
        | Ok reply => reply
        | Raise _ => JStr apology
        end,
     snd (teacher_reply w cfg k um session st)).
Proof.
  unfold guarded_reply, try_except, ret.
  now destruct (teacher_reply w cfg k um session st) as [[reply|e] st'].
Qed.

Lemma chat_completions_run w request st :
  let cfg := extract_config_from_system_prompt (messages request) in
  let k := get_conversation_id (messages request) in
  let um := get_last_user_message (messages request) in
  let block := teacher_reply w cfg k um (sessions st !! k) st in
  chat_completions w request st
  = (Ok (respond w request
           match fst block with
           | Ok reply => reply
           | Raise _ => JStr apology
           end),
     snd block).
Proof.
  cbv zeta. unfold chat_completions, bind, sessions_get.
  rewrite guarded_reply_run. reflexivity.
Qed.


(** C1: whenever the [try] block around the backend call raises, be it
    on the backend's status, on a transport failure or on anything else
    such as a field missing from the body, the handler returns, so the
    caller sees status 200 and not the backend's, and the response is
    built around the apology: streamed word by word when the request
    asks for a stream, as the content of the single choice otherwise. *)
Theorem backend_failure_gives_apology (w : World)
    (request : ChatCompletionRequest) (st : State) (e : exn) :
  let cfg := extract_config_from_system_prompt (messages request) in
  let k := get_conversation_id (messages request) in
  let um := get_last_user_message (messages request) in
  fst (teacher_reply w cfg k um (sessions st !! k) st) = Raise e ->
  fst (chat_completions w request st) = Ok (respond w request (JStr apology))
  /\ http_status (fst (chat_completions w request st)) = 200%Z
  /\ (stream request = true ->
      respond w request (JStr apology)
      = StreamingResponse
          (Ok (stream_response w apology (uuid4 w) (model request)))
          (lit "text/event-stream"))
  /\ (stream request = false ->
      respond w request (JStr apology)
      = ModelResponse
          {| cc_id := uuid4 w;
             cc_object := lit "chat.completion";
             cc_created := int_of_float (clock_response w);
             cc_model := model request;
             cc_choices :=
               [ JObj [ (lit "index", JInt 0);
                        (lit "message",
                          JObj [ (lit "role", JStr (lit "assistant"));
                                 (lit "content", JStr apology) ]);
                        (lit "finish_reason", JStr (lit "stop")) ] ] |}).
Proof.
  cbv zeta. intros H.
  pose proof (chat_completions_run w request st) as R. cbv zeta in R.
  rewrite R. cbn [fst]. rewrite H.
  split; [reflexivity|]. split; [reflexivity|].
  unfold respond. split; intros ->; reflexivity.
Qed.

(** The failures the specification names are among them. *)
Lemma named_failures_raise w cfg k um st :
  let o := http_post w (start_url w) (start_payload cfg) in
  (forall m, o = Fails m ->
     fst (teacher_reply w cfg k um None st) = Raise (HTTPError m))
  /\ (forall r, o = Responds r -> status_code r <> 201%Z ->
        fst (teacher_reply w cfg k um None st)
        = Raise (HTTPException (status_code r) (text r)))
  /\ (forall r, o = Responds r -> status_code r = 201%Z -> json_body r = None ->
        fst (teacher_reply w cfg k um None st) = Raise JSONDecodeError)
  /\ (forall r items, o = Responds r -> status_code r = 201%Z ->
        json_body r = Some (JObj items) ->
        assoc (lit "session_id") items = None ->
        fst (teacher_reply w cfg k um None st) = Raise (KeyError (lit "session_id"))).
Proof.
  cbv zeta. rewrite teacher_reply_miss. cbv zeta.
  repeat split.
  - now intros m ->.
  - intros r -> H. simpl. now rewrite (proj2 (Z.eqb_neq _ _) H).
  - intros r -> H1 H2. simpl. rewrite H1. simpl. unfold response_json.
    now rewrite H2.
  - intros r items -> H1 H2 H3. simpl. rewrite H1. simpl. unfold response_json.
    rewrite H2. simpl. now rewrite H3.
Qed.

Lemma named_failures_raise_hit w cfg k um s st :
  let o := http_post w (message_url w) (message_payload (session_id s) um) in
  (forall m, o = Fails m ->
     fst (teacher_reply w cfg k um (Some s) st) = Raise (HTTPError m))
  /\ (forall r, o = Responds r -> status_code r <> 200%Z ->
        fst (teacher_reply w cfg k um (Some s) st)
        = Raise (HTTPException (status_code r) (text r)))
  /\ (forall r, o = Responds r -> status_code r = 200%Z -> json_body r = None ->
        fst (teacher_reply w cfg k um (Some s) st) = Raise JSONDecodeError).
Proof.
  cbv zeta. rewrite teacher_reply_hit. cbv zeta.
  repeat split.
  - now intros m ->.
  - intros r -> H. simpl. now rewrite (proj2 (Z.eqb_neq _ _) H).
  - intros r -> H1 H2. simpl. rewrite H1. simpl. unfold response_json.
    now rewrite H2.
Qed.

Lemma backend_failure_witness :
  let w := {| TEACHER_API_URL := lit "http://backend";
              http_post := fun _ _ =>
                Responds {| status_code := 500;
                            text := lit "Internal Server Error";
                            json_body := None |};
              clock_session := 0%Q; clock_response := 0%Q;
              uuid4 := lit "id" |} in
  let request := {| model := lit "ai-teacher";
                    messages :=
                      [ {| role := lit "system"; content := lit "[LESSON: Waves]" |};
                        {| role := lit "user"; content := lit "Hello" |} ];
                    stream := true; temperature := None; max_tokens := None |} in
  let st := {| sessions := ∅; posted := [] |} in
  fst (chat_completions w request st) = Ok (respond w request (JStr apology))
  /\ http_status (fst (chat_completions w request st)) = 200%Z.
Proof.
  cbv zeta.
  match goal with
  | |- fst (chat_completions ?w ?request ?st) = _ /\ _ =>
      pose proof (backend_failure_gives_apology w request st
                    (HTTPException 500 (lit "Internal Server Error"))) as H
  end.
  cbv zeta in H.
  destruct H as (A & B & _); [|split; assumption].
  cbn [sessions]. rewrite lookup_empty, teacher_reply_miss. reflexivity.
Defined.

(** A hit makes one POST, the message with the stored session id and
    the last user text, and leaves the store as it is. *)
Lemma hit_sends_one_message w request st s :
  sessions st !! get_conversation_id (messages request) = Some s ->
  posted (snd (chat_completions w request st))
  = posted st
    ++ [(message_url w,
         message_payload (session_id s) (get_last_user_message (messages request)))]
  /\ sessions (snd (chat_completions w request st)) = sessions st.
Proof.
  intros H. pose proof (chat_completions_run w request st) as R.
  cbv zeta in R. rewrite R, H, teacher_reply_hit. cbv zeta. cbn [snd].
  destruct (call_outcome _ 200) as [body|e]; [|split; reflexivity].
  destruct (get body _ _) as [reply|e]; [|split; reflexivity].
  destruct (slice_to 100 reply); split; reflexivity.
Qed.

(** A miss makes one POST, the start of a session with the extracted
    configuration, whatever comes of it. *)
Lemma miss_starts_one_session w request st :
  sessions st !! get_conversation_id (messages request) = None ->
  posted (snd (chat_completions w request st))
  = posted st
    ++ [(start_url w,
         start_payload (extract_config_from_system_prompt (messages request)))].
Proof.
  intros H. pose proof (chat_completions_run w request st) as R.
  cbv zeta in R. rewrite R, H, teacher_reply_miss. cbv zeta. cbn [snd].
  destruct (call_outcome _ 201) as [body|e]; [|reflexivity].
  destruct (getitem body _) as [sid|e]; [|reflexivity].
  destruct (get body _ _) as [first|e]; [|reflexivity].
  destruct (slice_to 50 first); reflexivity.
Qed.

(** A stored session stays, whatever request is served next. *)
Lemma session_persists w request st k s :
  sessions st !! k = Some s ->
  sessions (snd (chat_completions w request st)) !! k = Some s.
Proof.
  intros H.
  destruct (sessions st !! get_conversation_id (messages request)) as [s'|] eqn:E.
  - now rewrite (proj2 (hit_sends_one_message w request st s' E)).
  - assert (Hne : get_conversation_id (messages request) <> k) by congruence.
    pose proof (chat_completions_run w request st) as R.
    cbv zeta in R. rewrite R, E, teacher_reply_miss. cbv zeta. cbn [snd].
    destruct (call_outcome _ 201) as [body|e]; [|exact H].
    destruct (getitem body _) as [sid|e]; [|exact H].
    destruct (get body _ _) as [first|e]; [|exact H].
    destruct (slice_to 50 first); cbn [snd sessions];
      now rewrite lookup_insert_ne.
Qed.

Lemma serve_persists reqs : forall st k s,
  sessions st !! k = Some s ->
  sessions (snd (serve reqs st)) !! k = Some s.
Proof.
  induction reqs as [|[w request] reqs IH]; intros st k s H; [exact H|].
  cbn [serve].
  destruct (chat_completions w request st) as [r st'] eqn:E.
  specialize (IH st' k s). destruct (serve reqs st') as [rs st''].
  cbn [snd] in *. apply IH.
  pose proof (session_persists w request st k s H) as P.
  now rewrite E in P.
Qed.

(** C2: served one after the other, the first request whose key is not
    in the store, when the backend answers the start of a session with
    201 and a body holding [session_id] and a text [initial_message],
    makes exactly one POST, the StartSession with the extracted
    configuration (so neither a SendMessage nor the user's text goes
    out), stores one session under the key and answers with the
    initial message itself; after that, and after any requests served in
    between, a request with the same key makes exactly one POST, the
    SendMessage with the stored session id and its last user text, and
    leaves the store as it is. *)
Theorem session_created_once_then_reused
    (w1 w2 : World) (req1 req2 : ChatCompletionRequest)
    (between : list (World * ChatCompletionRequest)) (st : State)
    (k : str) (r : HttpResponse) (items : list (str * json))
    (sid : json) (first : str) :
  get_conversation_id (messages req1) = k ->
  get_conversation_id (messages req2) = k ->
  sessions st !! k = None ->
  http_post w1 (start_url w1)
    (start_payload (extract_config_from_system_prompt (messages req1)))
  = Responds r ->
  status_code r = 201%Z ->
  json_body r = Some (JObj items) ->
  assoc (lit "session_id") items = Some sid ->
  assoc (lit "initial_message") items = Some (JStr first) ->
  let cfg1 := extract_config_from_system_prompt (messages req1) in
  let run1 := chat_completions w1 req1 st in
  let st' := snd (serve between (snd run1)) in
  let run2 := chat_completions w2 req2 st' in
  fst run1 = Ok (respond w1 req1 (JStr first))
  /\ posted (snd run1) = posted st ++ [(start_url w1, start_payload cfg1)]
  /\ sessions (snd run1)
     = <[k := {| session_id := sid; config := cfg1;
                 created := clock_session w1;
                 initial_message := JStr first |}]> (sessions st)
  /\ posted (snd run2)
     = posted st'
       ++ [(message_url w2,
            message_payload sid (get_last_user_message (messages req2)))]
  /\ sessions (snd run2) = sessions st'.
Proof.
  intros K1 K2 Hmiss Hpost Hstatus Hbody Hsid Hfirst. cbv zeta.
  pose proof (chat_completions_run w1 req1 st) as R. cbv zeta in R.
  rewrite K1, Hmiss, teacher_reply_miss in R. cbv zeta in R.
  rewrite Hpost in R. cbn [call_outcome] in R.
  rewrite Hstatus in R. cbn [Z.eqb Pos.eqb] in R.
  unfold response_json in R. rewrite Hbody in R.
  cbn [getitem get] in R. rewrite Hsid, Hfirst in R.
  cbn [slice_to fst snd] in R.
  rewrite R. cbn [fst snd sessions posted after_post].
  split; [reflexivity|]. split; [reflexivity|]. split; [reflexivity|].
  apply (hit_sends_one_message w2 req2 _
           {| session_id := sid;
              config := extract_config_from_system_prompt (messages req1);
              created := clock_session w1; initial_message := JStr first |}).
  rewrite K2. apply serve_persists. cbn [sessions].
  apply lookup_insert_eq.
Qed.

Lemma session_created_once_then_reused_witness :
  let backend := fun (url : str) (_ : json) =>
    if bool_decide (url = lit "http://backend/api/v1/teacher/start")
    then Responds {| status_code := 201; text := [];
                     json_body :=
                       Some (JObj [ (lit "session_id", JStr (lit "s-1"));
                                    (lit "initial_message",
                                      JStr (lit "Welcome to Waves")) ]) |}
    else Responds {| status_code := 200; text := [];
                     json_body :=
                       Some (JObj [ (lit "teacher_message",
                                      JStr (lit "A wave carries energy.")) ]) |} in
  let w := {| TEACHER_API_URL := lit "http://backend"; http_post := backend;
              clock_session := 0%Q; clock_response := 0%Q;
              uuid4 := lit "id" |} in
  let system := {| role := lit "system"; content := lit "[LESSON: Waves]" |} in
  let req1 := {| model := lit "ai-teacher";
                 messages := [ system; {| role := lit "user"; content := lit "Hello" |} ];
                 stream := false; temperature := None; max_tokens := None |} in
  let req2 := {| model := lit "ai-teacher";
                 messages :=
                   [ system; {| role := lit "user"; content := lit "Hello" |};
                     {| role := lit "assistant"; content := lit "Welcome to Waves" |};
                     {| role := lit "user"; content := lit "What is a wave?" |} ];
                 stream := false; temperature := None; max_tokens := None |} in
  let st := {| sessions := ∅; posted := [] |} in
  let run1 := chat_completions w req1 st in
  let run2 := chat_completions w req2 (snd run1) in
  fst run1 = Ok (respond w req1 (JStr (lit "Welcome to Waves")))
  /\ posted (snd run2)
     = posted (snd run1)
       ++ [(message_url w,
            message_payload (JStr (lit "s-1")) (lit "What is a wave?"))].
Proof.
  cbv zeta.
  match goal with
  | |- fst (chat_completions ?w ?req1 ?st) = _
       /\ posted (snd (chat_completions _ ?req2 _)) = _ =>
      pose proof (session_created_once_then_reused w w req1 req2 [] st
                    (get_conversation_id (messages req1))
                    {| status_code := 201; text := [];
                       json_body :=
                         Some (JObj [ (lit "session_id", JStr (lit "s-1"));
                                      (lit "initial_message",
                                        JStr (lit "Welcome to Waves")) ]) |}
                    [ (lit "session_id", JStr (lit "s-1"));
                      (lit "initial_message", JStr (lit "Welcome to Waves")) ]
                    (JStr (lit "s-1")) (lit "Welcome to Waves")) as H
  end.
  cbv zeta in H.
  destruct H as (A & _ & _ & B & _).
  - reflexivity.
  - vm_compute. reflexivity.
  - apply lookup_empty.
  - vm_compute. reflexivity.
  - reflexivity.
  - reflexivity.
  - reflexivity.
  - reflexivity.
  - split; [exact A | exact B].
Defined.

(** C8: a request that does not ask for a stream is answered with one
    completed chat object: the generated id, the creation time, the
    model name of the request, and exactly one choice whose message has
    the role "assistant" and, as content, the reply the guarded block
    produced, with finish_reason "stop". *)
Theorem non_streaming_response_shape (w : World)
    (request : ChatCompletionRequest) (st : State) :
  stream request = false ->
  let cfg := extract_config_from_system_prompt (messages request) in
  let k := get_conversation_id (messages request) in
  let um := get_last_user_message (messages request) in
  exists reply st',
    guarded_reply w cfg k um (sessions st !! k) st = (Ok reply, st')
    /\ chat_completions w request st
       = (Ok (ModelResponse
                {| cc_id := uuid4 w;
                   cc_object := lit "chat.completion";
                   cc_created := int_of_float (clock_response w);
                   cc_model := model request;
                   cc_choices :=
                     [ JObj [ (lit "index", JInt 0);
                              (lit "message",
                                JObj [ (lit "role", JStr (lit "assistant"));
                                       (lit "content", reply) ]);
                              (lit "finish_reason", JStr (lit "stop")) ] ] |}),
          st').
Proof.
  intros Hs. cbv zeta.
  pose proof (chat_completions_run w request st) as R. cbv zeta in R.
  rewrite R, guarded_reply_run.
  eexists. eexists. split; [reflexivity|].
  unfold respond. rewrite Hs. reflexivity.
Qed.

Lemma non_streaming_response_hi :
  let w := {| TEACHER_API_URL := lit "http://backend";
              http_post := fun _ _ =>
                Responds {| status_code := 201; text := [];
                            json_body :=
                              Some (JObj [ (lit "session_id", JStr (lit "s-1"));
                                           (lit "initial_message", JStr (lit "Hi")) ]) |};
              clock_session := 0%Q; clock_response := (17 # 10)%Q;
              uuid4 := lit "id" |} in
  let request := {| model := lit "ai-teacher";
                    messages := [ {| role := lit "user"; content := lit "Hello" |} ];
                    stream := false; temperature := None; max_tokens := None |} in
  let st := {| sessions := ∅; posted := [] |} in
  exists st',
    chat_completions w request st
    = (Ok (ModelResponse
             {| cc_id := lit "id";
                cc_object := lit "chat.completion";
                cc_created := 1;
                cc_model := lit "ai-teacher";
                cc_choices :=
                  [ JObj [ (lit "index", JInt 0);
                           (lit "message",
                             JObj [ (lit "role", JStr (lit "assistant"));
                                    (lit "content", JStr (lit "Hi")) ]);
                           (lit "finish_reason", JStr (lit "stop")) ] ] |}),
       st').
Proof.
  cbv zeta.
  match goal with
  | |- exists st', chat_completions ?w ?request ?st = _ =>
      pose proof (non_streaming_response_shape w request st) as H
  end.
  specialize (H eq_refl). cbv zeta in H.
  destruct H as (reply & st' & G & C).
  exists st'. rewrite C.
  rewrite guarded_reply_run in G. cbn [sessions] in G.
  rewrite lookup_empty, teacher_reply_miss in G.
  apply (f_equal fst) in G. cbn [fst] in G.
  vm_compute in G. injection G as <-. reflexivity.
Defined.

(** C10: on a store miss, when the StartSession call raises or its body
    has no [session_id], the store after the request is the store before
    it, the caller gets the apology, and the next request with that key
    starts a session again. *)
Theorem failed_creation_leaves_store_unchanged (w w' : World)
    (request request' : ChatCompletionRequest) (st : State) (k : str)
    (e : exn) :
  get_conversation_id (messages request) = k ->
  sessions st !! k = None ->
  (fst (start_teacher_session w
          (extract_config_from_system_prompt (messages request)) st)
   = Raise e
   \/ exists body,
        fst (start_teacher_session w
               (extract_config_from_system_prompt (messages request)) st)
        = Ok body
        /\ getitem body (lit "session_id") = Raise e) ->
  let st1 := snd (chat_completions w request st) in
  sessions st1 = sessions st
  /\ fst (chat_completions w request st) = Ok (respond w request (JStr apology))
  /\ (get_conversation_id (messages request') = k ->
      posted (snd (chat_completions w' request' st1))
      = posted st1
        ++ [(start_url w',
             start_payload (extract_config_from_system_prompt (messages request')))]).
Proof.
  intros K Hmiss Hfail. cbv zeta.
  rewrite start_teacher_session_run in Hfail. cbn [fst] in Hfail.
  pose proof (chat_completions_run w request st) as R. cbv zeta in R.
  rewrite K, Hmiss, teacher_reply_miss in R. cbv zeta in R.
  assert (E : chat_completions w request st
              = (Ok (respond w request (JStr apology)),
                 after_post st (start_url w)
                   (start_payload
                      (extract_config_from_system_prompt (messages request))))).
  { rewrite R. destruct Hfail as [-> | (body & -> & ->)]; reflexivity. }
  rewrite E. cbn [fst snd]. split; [reflexivity|]. split; [reflexivity|].
  intros K'. apply miss_starts_one_session. rewrite K'. exact Hmiss.
Qed.

Lemma failed_creation_witness :
  let w := {| TEACHER_API_URL := lit "http://backend";
              http_post := fun _ _ =>
                Responds {| status_code := 201; text := [];
                            json_body :=
                              Some (JObj [ (lit "initial_message", JStr (lit "Hi")) ]) |};
              clock_session := 0%Q; clock_response := 0%Q;
              uuid4 := lit "id" |} in
  let request := {| model := lit "ai-teacher";
                    messages := [ {| role := lit "user"; content := lit "Hello" |} ];
                    stream := true; temperature := None; max_tokens := None |} in
  let st := {| sessions := ∅; posted := [] |} in
  sessions (snd (chat_completions w request st)) = ∅
  /\ fst (chat_completions w request st) = Ok (respond w request (JStr apology)).
Proof.
  cbv zeta.
  match goal with
  | |- sessions (snd (chat_completions ?w ?request ?st)) = _ /\ _ =>
      pose proof (failed_creation_leaves_store_unchanged w w request request st
                    (get_conversation_id (messages request))
                    (KeyError (lit "session_id"))) as H
  end.
  cbv zeta in H. destruct H as (A & B & _).
  - reflexivity.
  - apply lookup_empty.
  - right. rewrite start_teacher_session_run. eexists. split; reflexivity.
  - split; [exact A | exact B].
Defined.

(** The insertion is not undone by a failure that comes after it: a
    body whose [initial_message] is null makes the block raise once the
    session is stored, so the caller gets the apology and the next
    request with that key finds the session. *)
Lemma failure_after_insertion w request st r items sid :
  sessions st !! get_conversation_id (messages request) = None ->
  http_post w (start_url w)
    (start_payload (extract_config_from_system_prompt (messages request)))
  = Responds r ->
  status_code r = 201%Z ->
  json_body r = Some (JObj items) ->
  assoc (lit "session_id") items = Some sid ->
  assoc (lit "initial_message") items = Some JNull ->
  fst (chat_completions w request st) = Ok (respond w request (JStr apology))
  /\ sessions (snd (chat_completions w request st))
     = <[get_conversation_id (messages request) :=
           {| session_id := sid;
              config := extract_config_from_system_prompt (messages request);
              created := clock_session w; initial_message := JNull |}]>
         (sessions st).
Proof.
  intros Hmiss Hpost Hstatus Hbody Hsid Hfirst.
  pose proof (chat_completions_run w request st) as R. cbv zeta in R.
  rewrite Hmiss, teacher_reply_miss in R. cbv zeta in R.
  rewrite Hpost in R. cbn [call_outcome] in R.
  rewrite Hstatus in R. cbn [Z.eqb Pos.eqb] in R.
  unfold response_json in R. rewrite Hbody in R.
  cbn [getitem get] in R. rewrite Hsid, Hfirst in R.
  cbn [slice_to fst snd] in R. rewrite R. split; reflexivity.
Qed.

(** * Further properties of the code *)

(** ** Trimming *)

Lemma lstrip_decompose s : exists gap, s = gap ++ lstrip s /\ blank gap.
Proof.
  induction s as [|c s (gap & E & Hgap)].
  - exists []. split; [reflexivity | constructor].
  - simpl. destruct (isspace c) eqn:Hc.
    + exists (c :: gap). split; [simpl; now f_equal | now constructor].
    + exists []. split; [reflexivity | constructor].
Qed.

Lemma rstrip_decompose s : exists gap, s = rstrip s ++ gap /\ blank gap.
Proof.
  unfold rstrip. destruct (lstrip_decompose (rev s)) as (gap & E & Hgap).
  exists (rev gap). split.
  - rewrite <- rev_app_distr, <- E. now rewrite rev_involutive.
  - unfold blank in *. rewrite List.Forall_forall in *.
    intros x Hx. apply Hgap. now apply in_rev.
Qed.

Lemma lstrip_no_lead s : no_lead (lstrip s).
Proof.
  induction s as [|c s IH]; simpl; [exact I|].
  destruct (isspace c) eqn:Hc; [exact IH | exact Hc].
Qed.

Lemma lstrip_id s : no_lead s -> lstrip s = s.
Proof. destruct s as [|c s]; simpl; [reflexivity|]. now intros ->. Qed.

Lemma rstrip_no_lead s : no_lead s -> no_lead (rstrip s).
Proof.
  intros H. destruct (rstrip_decompose s) as (gap & E & _).
  destruct (rstrip s) as [|c t]; [exact I|].
  rewrite E in H. exact H.
Qed.

Lemma strip_idempotent s : strip (strip s) = strip s.
Proof.
  unfold strip at 1.
  rewrite (lstrip_id (strip s)).
  - unfold strip, rstrip. rewrite rev_involutive.
    now rewrite (lstrip_id _ (lstrip_no_lead _)).
  - apply rstrip_no_lead, lstrip_no_lead.
Qed.

Lemma strip_In x s : In x (strip s) -> In x s.
Proof.
  intros H. unfold strip in H.
  destruct (lstrip_decompose s) as (g1 & E1 & _).
  destruct (rstrip_decompose (lstrip s)) as (g2 & E2 & _).
  rewrite E1, E2. apply in_or_app. right. apply in_or_app. now left.
Qed.

(** ** More on the Config Extractor *)

Lemma text_fields_rules msgs :
  Forall (fun '(name, default, v) =>
            field_rule name default (system_content msgs) v)
    (text_fields (extract_config_from_system_prompt msgs)).
Proof.
  destruct (text_field_rules msgs) as (R1 & R2 & R3 & R4 & R5 & R6).
  unfold text_fields.
  repeat (apply List.Forall_cons; [assumption|]). apply List.Forall_nil.
Qed.

(** The pattern of a tag and the bracketed tags of a text are the same
    thing: [re.search] finds nothing exactly when the text has no
    [[NAME:] followed by a non-empty value without a closing bracket and
    by the bracket, and what it finds is the first such tag, the trimmed
    group being the trimmed value. *)
Theorem tag_pattern_finds_the_first_tag (name txt : str) :
  (search (tag_pattern name) txt = None <-> ~ has_tag name txt)
  /\ (forall g, search (tag_pattern name) txt = Some g ->
        exists raw, first_tag name txt raw /\ strip g = strip raw)
  /\ (forall raw, first_tag name txt raw ->
        exists g, search (tag_pattern name) txt = Some g /\ strip g = strip raw).
Proof.
  split; [apply search_tag_none|].
  split; [intros g; apply search_some_first_tag | apply search_first_tag].
Qed.

(** A text field taken from a tag is trimmed, whatever surrounds the
    value in the prompt: trimming it again changes nothing, and it holds
    no closing bracket. *)
Theorem tag_values_are_trimmed (msgs : list Message) :
  Forall (fun '(name, _, v) =>
            has_tag name (system_content msgs) ->
            strip v = v /\ ~ In rbracket v)
    (text_fields (extract_config_from_system_prompt msgs)).
Proof.
  pose proof (text_fields_rules msgs) as H. revert H.
  apply List.Forall_impl. intros [[name default] v] [_ Hrule] Htag.
  apply has_tag_first in Htag as [raw Hraw].
  rewrite (Hrule raw Hraw). split; [apply strip_idempotent|].
  intros Hin. apply strip_In in Hin.
  destruct Hraw as (pre & post & (_ & _ & Hno) & _). contradiction.
Qed.

(** A tag whose value is only blanks does override the default: the
    field becomes the empty text. *)
Theorem blank_tag_value_gives_empty_field (msgs : list Message) (raw : str) :
  blank raw ->
  Forall (fun '(name, _, v) =>
            first_tag name (system_content msgs) raw -> v = [])
    (text_fields (extract_config_from_system_prompt msgs)).
Proof.
  intros Hblank. pose proof (text_fields_rules msgs) as H. revert H.
  apply List.Forall_impl. intros [[name default] v] [_ Hrule] Hraw.
  rewrite (Hrule raw Hraw). now apply strip_all_blank.
Qed.

Lemma blank_tag_value_witness :
  let msgs := [ {| role := lit "system"; content := lit "[STUDENT:  ]" |} ] in
  blank (lit "  ")
  /\ first_tag (lit "STUDENT") (system_content msgs) (lit "  ")
  /\ student (extract_config_from_system_prompt msgs) = [].
Proof.
  cbv zeta.
  assert (Hb : blank (lit "  ")) by (repeat constructor).
  assert (Hf : first_tag (lit "STUDENT")
                 (system_content
                    [ {| role := lit "system"; content := lit "[STUDENT:  ]" |} ])
                 (lit "  ")).
  { exists [], []. split.
    - split; [vm_compute; reflexivity|]. split; [discriminate|].
      apply not_in_run. vm_compute. reflexivity.
    - intros pre' raw' post' _. simpl. lia. }
  split; [exact Hb|]. split; [exact Hf|].
  pose proof (blank_tag_value_gives_empty_field
                [ {| role := lit "system"; content := lit "[STUDENT:  ]" |} ]
                _ Hb) as H.
  unfold text_fields in H.
  do 5 (apply List.Forall_inv_tail in H). apply List.Forall_inv in H.
  exact (H Hf).
Defined.

(** A competence tag is honoured whenever its trimmed value is not the
    extractor's own default text. *)
Theorem competence_tag_other_than_default (msgs : list Message) (raw : str) :
  first_tag (lit "COMPETENCE") (system_content msgs) raw ->
  strip raw <> lit "Understanding the core concepts" ->
  competence (extract_config_from_system_prompt msgs) = [strip raw].
Proof. apply competence_tag_honoured. Qed.

Lemma competence_tag_other_than_default_witness :
  let msgs :=
    [ {| role := lit "system";
         content := lit "[COMPETENCE: Measuring a wavelength ][LESSON: Waves]" |} ] in
  first_tag (lit "COMPETENCE") (system_content msgs)
    (lit " Measuring a wavelength ")
  /\ competence (extract_config_from_system_prompt msgs)
     = [lit "Measuring a wavelength"].
Proof.
  cbv zeta.
  assert (Hf : first_tag (lit "COMPETENCE")
                 (system_content
                    [ {| role := lit "system";
                         content :=
                           lit "[COMPETENCE: Measuring a wavelength ][LESSON: Waves]" |} ])
                 (lit " Measuring a wavelength ")).
  { exists [], (lit "[LESSON: Waves]"). split.
    - split; [vm_compute; reflexivity|]. split; [discriminate|].
      apply not_in_run. vm_compute. reflexivity.
    - intros pre' raw' post' _. simpl. lia. }
  split; [exact Hf|].
  apply (competence_tag_other_than_default _ _ Hf). vm_compute. discriminate.
Defined.

(** ** The messages that count *)

Lemma first_content_absent r msgs :
  Forall (fun m => role m <> r) msgs -> first_content r msgs = [].
Proof.
  induction 1 as [|m msgs Hm _ IH]; [reflexivity|].
  simpl. now rewrite bool_decide_eq_false_2.
Qed.

Lemma first_content_first r before m after :
  Forall (fun x => role x <> r) before ->
  role m = r ->
  first_content r (before ++ m :: after) = content m.
Proof.
  induction 1 as [|x before Hx _ IH]; intros Hm; simpl.
  - now rewrite bool_decide_eq_true_2.
  - rewrite bool_decide_eq_false_2 by assumption. now apply IH.
Qed.

(** Only the first system message counts: the turns before it, and
    everything after it (further system messages among it), change
    neither the configuration nor the conversation key. *)
Theorem first_system_message_only (before after : list Message) (m : Message) :
  Forall (fun x => role x <> lit "system") before ->
  role m = lit "system" ->
  extract_config_from_system_prompt (before ++ m :: after)
  = extract_config_from_system_prompt [m]
  /\ get_conversation_id (before ++ m :: after) = get_conversation_id [m]
  /\ get_conversation_id [m] = md5_hexdigest (encode (content m)).
Proof.
  intros Hb Hm.
  assert (E : system_content (before ++ m :: after) = content m)
    by now apply system_content_first.
  assert (E1 : system_content [m] = content m)
    by now apply (system_content_first [] m []).
  unfold extract_config_from_system_prompt, get_conversation_id.
  rewrite E, E1. repeat split.
Qed.

Lemma first_system_message_only_witness :
  let m := {| role := lit "system"; content := lit "[LESSON: Waves]" |} in
  let before := [ {| role := lit "user"; content := lit "[LESSON: Heat]" |} ] in
  let after := [ {| role := lit "system"; content := lit "[LESSON: Light]" |} ] in
  lesson (extract_config_from_system_prompt (before ++ m :: after)) = lit "Waves"
  /\ get_conversation_id (before ++ m :: after) = get_conversation_id [m].
Proof.
  cbv zeta.
  match goal with
  | |- lesson (extract_config_from_system_prompt (?b ++ ?m :: ?a)) = _ /\ _ =>
      destruct (first_system_message_only b a m) as (E & K & _)
  end.
  - repeat constructor. discriminate.
  - reflexivity.
  - split; [|exact K]. rewrite E. vm_compute. reflexivity.
Defined.

(** The user text of a request is the content of its last user message,
    whatever follows that message, and the empty text when the request
    has no user message. *)
Theorem last_user_message_is_taken (msgs : list Message) :
  (Forall (fun x => role x <> lit "user") msgs ->
   get_last_user_message msgs = [])
  /\ (forall before m after,
        msgs = before ++ m :: after ->
        role m = lit "user" ->
        Forall (fun x => role x <> lit "user") after ->
        get_last_user_message msgs = content m).
Proof.
  unfold get_last_user_message. split.
  - intros H. apply first_content_absent.
    rewrite List.Forall_forall in *. intros x Hx. apply H. now apply in_rev.
  - intros before m after -> Hm Ha.
    rewrite rev_app_distr. cbn [rev]. rewrite <- app_assoc. cbn [app].
    apply first_content_first; [|assumption].
    rewrite List.Forall_forall in *. intros x Hx. apply Ha. now apply in_rev.
Qed.

(** ** More on the Request Orchestrator *)

(** Every request makes exactly one POST to the backend, whatever comes
    of it: the start of a session when its key is not in the store, a
    message to the stored session otherwise. *)
Theorem one_post_per_request (w : World) (request : ChatCompletionRequest)
    (st : State) :
  posted (snd (chat_completions w request st))
  = posted st
    ++ [ match sessions st !! get_conversation_id (messages request) with
         | None =>
             (start_url w,
              start_payload (extract_config_from_system_prompt (messages request)))
         | Some s =>
             (message_url w,
              message_payload (session_id s)
                (get_last_user_message (messages request)))
         end ].
Proof.
  destruct (sessions st !! get_conversation_id (messages request)) as [s|] eqn:E.
  - apply (hit_sends_one_message w request st s E).
  - apply (miss_starts_one_session w request st E).
Qed.


(** The store only grows, and by the key of the request at most: a
    request changes no entry that was there, and the one entry it may
    add is under its own key, which had none. *)
Theorem store_only_grows (w : World) (request : ChatCompletionRequest)
    (st : State) (k : str) :
  sessions (snd (chat_completions w request st)) !! k = sessions st !! k
  \/ (k = get_conversation_id (messages request)
      /\ sessions st !! k = None
      /\ is_Some (sessions (snd (chat_completions w request st)) !! k)).
Proof.
  destruct (sessions st !! get_conversation_id (messages request)) as [s|] eqn:E.
  - left. now rewrite (proj2 (hit_sends_one_message w request st s E)).
  - pose proof (chat_completions_run w request st) as R.
    cbv zeta in R. rewrite R, E, teacher_reply_miss. cbv zeta.
    destruct (call_outcome _ 201) as [body|e]; [|now left].
    destruct (getitem body _) as [sid|e]; [|now left].
    destruct (get body _ _) as [first|e]; [|now left].
    assert (H : forall o : result json * State,
              snd o = {| sessions :=
                           <[get_conversation_id (messages request) :=
                               {| session_id := sid;
                                  config := extract_config_from_system_prompt (messages request);
                                  created := clock_session w;
                                  initial_message := first |}]> (sessions st);
                         posted := posted (after_post st (start_url w)
                                     (start_payload
                                        (extract_config_from_system_prompt
                                           (messages request)))) |} ->
              sessions (snd o) !! k = sessions st !! k
              \/ (k = get_conversation_id (messages request)
                  /\ sessions st !! k = None
                  /\ is_Some (sessions (snd o) !! k))).
    { intros o ->. cbn [sessions].
      destruct (decide (k = get_conversation_id (messages request))) as [->|Hne].
      - right. split; [reflexivity|]. split; [exact E|].
        rewrite lookup_insert_eq. eauto.
      - left. now rewrite lookup_insert_ne. }
    destruct (slice_to 50 first); apply H; reflexivity.
Qed.



(** The state left by a hit, and the reply by the body of a 200. *)
Lemma hit_run w request st s r items :
  sessions st !! get_conversation_id (messages request) = Some s ->
  http_post w (message_url w)
    (message_payload (session_id s) (get_last_user_message (messages request)))
  = Responds r ->
  status_code r = 200%Z ->
  json_body r = Some (JObj items) ->
  fst (chat_completions w request st)
  = Ok (respond w request
          match get (JObj items) (lit "teacher_message") (JStr fallback) with
          | Ok reply =>
              match slice_to 100 reply with
              | Ok _ => reply
              | Raise _ => JStr apology
              end
          | Raise _ => JStr apology
          end).
Proof.
  intros Hhit Hpost Hstatus Hbody.
  pose proof (chat_completions_run w request st) as R. cbv zeta in R.
  rewrite R, Hhit, teacher_reply_hit. cbv zeta.
  rewrite Hpost. cbn [call_outcome]. rewrite Hstatus. cbn [Z.eqb Pos.eqb].
  unfold response_json. rewrite Hbody. cbn [fst].
  destruct (get (JObj items) _ _) as [reply|e]; [|reflexivity].
  destruct (slice_to 100 reply); reflexivity.
Qed.

(** On a hit answered with 200, the reply is the backend's
    [teacher_message] when it is a text, and the fixed phrase "I
    apologize, but I didn't catch that. Could you please repeat?" when
    the body has no such field. *)
Theorem hit_reply_or_fallback (w : World) (request : ChatCompletionRequest)
    (st : State) (s : Session) (r : HttpResponse) (items : list (str * json)) :
  sessions st !! get_conversation_id (messages request) = Some s ->
  http_post w (message_url w)
    (message_payload (session_id s) (get_last_user_message (messages request)))
  = Responds r ->
  status_code r = 200%Z ->
  json_body r = Some (JObj items) ->
  (forall t, assoc (lit "teacher_message") items = Some (JStr t) ->
     fst (chat_completions w request st) = Ok (respond w request (JStr t)))
  /\ (assoc (lit "teacher_message") items = None ->
      fst (chat_completions w request st)
      = Ok (respond w request
              (JStr (lit "I apologize, but I didn't catch that. Could you please repeat?")))).
Proof.
  intros Hhit Hpost Hstatus Hbody.
  rewrite (hit_run w request st s r items Hhit Hpost Hstatus Hbody).
  cbn [get]. split.
  - intros t ->. reflexivity.
  - intros ->. reflexivity.
Qed.

Lemma hit_reply_or_fallback_witness :
  let w := {| TEACHER_API_URL := lit "http://backend";
              http_post := fun _ _ =>
                Responds {| status_code := 200; text := [];
                            json_body := Some (JObj [ (lit "other", JNull) ]) |};
              clock_session := 0%Q; clock_response := 0%Q;
              uuid4 := lit "id" |} in
  let request := {| model := lit "ai-teacher";
                    messages := [ {| role := lit "user"; content := lit "Hello" |} ];
                    stream := false; temperature := None; max_tokens := None |} in
  let s := {| session_id := JStr (lit "s-1");
              config := default_config; created := 0%Q;
              initial_message := JStr (lit "Hi") |} in
  let st := {| sessions := <[get_conversation_id (messages request) := s]> ∅;
               posted := [] |} in
  fst (chat_completions w request st) = Ok (respond w request (JStr fallback)).
Proof.
  cbv zeta.
  match goal with
  | |- fst (chat_completions ?w ?request ?st) = _ =>
      pose proof (hit_reply_or_fallback w request st
                    {| session_id := JStr (lit "s-1");
                       config := default_config; created := 0%Q;
                       initial_message := JStr (lit "Hi") |}
                    {| status_code := 200; text := [];
                       json_body := Some (JObj [ (lit "other", JNull) ]) |}
                    [ (lit "other", JNull) ]) as H
  end.
  destruct H as (_ & H).
  - cbn [sessions]. apply lookup_insert_eq.
  - reflexivity.
  - reflexivity.
  - reflexivity.
  - apply H. reflexivity.
Defined.

(** On a miss answered with 201 and a body that has a [session_id] but
    no [initial_message], the reply is the greeting "Hello! I'm your AI
    teacher." and the session is stored with it. *)
Theorem greeting_without_initial_message (w : World)
    (request : ChatCompletionRequest) (st : State) (r : HttpResponse)
    (items : list (str * json)) (sid : json) :
  sessions st !! get_conversation_id (messages request) = None ->
  http_post w (start_url w)
    (start_payload (extract_config_from_system_prompt (messages request)))
  = Responds r ->
  status_code r = 201%Z ->
  json_body r = Some (JObj items) ->
  assoc (lit "session_id") items = Some sid ->
  assoc (lit "initial_message") items = None ->
  fst (chat_completions w request st)
  = Ok (respond w request (JStr (lit "Hello! I'm your AI teacher.")))
  /\ sessions (snd (chat_completions w request st))
     = <[get_conversation_id (messages request) :=
           {| session_id := sid;
              config := extract_config_from_system_prompt (messages request);
              created := clock_session w;
              initial_message := JStr (lit "Hello! I'm your AI teacher.") |}]>
         (sessions st).
Proof.
  intros Hmiss Hpost Hstatus Hbody Hsid Hfirst.
  pose proof (chat_completions_run w request st) as R. cbv zeta in R.
  rewrite Hmiss, teacher_reply_miss in R. cbv zeta in R.
  rewrite Hpost in R. cbn [call_outcome] in R.
  rewrite Hstatus in R. cbn [Z.eqb Pos.eqb] in R.
  unfold response_json in R. rewrite Hbody in R.
  cbn [getitem get] in R. rewrite Hsid, Hfirst in R.
  cbn [slice_to fst snd greeting] in R. rewrite R. split; reflexivity.
Qed.

Lemma greeting_without_initial_message_witness :
  let w := {| TEACHER_API_URL := lit "http://backend";
              http_post := fun _ _ =>
                Responds {| status_code := 201; text := [];
                            json_body :=
                              Some (JObj [ (lit "session_id", JStr (lit "s-1")) ]) |};
              clock_session := 0%Q; clock_response := 0%Q;
              uuid4 := lit "id" |} in
  let request := {| model := lit "ai-teacher";
                    messages := [ {| role := lit "user"; content := lit "Hello" |} ];
                    stream := false; temperature := None; max_tokens := None |} in
  let st := {| sessions := ∅; posted := [] |} in
  fst (chat_completions w request st)
  = Ok (respond w request (JStr (lit "Hello! I'm your AI teacher."))).
Proof.
  cbv zeta.
  match goal with
  | |- fst (chat_completions ?w ?request ?st) = _ =>
      pose proof (greeting_without_initial_message w request st
                    {| status_code := 201; text := [];
                       json_body :=
                         Some (JObj [ (lit "session_id", JStr (lit "s-1")) ]) |}
                    [ (lit "session_id", JStr (lit "s-1")) ]
                    (JStr (lit "s-1"))) as H
  end.
  destruct H as (H & _).
  - apply lookup_empty.
  - reflexivity.
  - reflexivity.
  - reflexivity.
  - reflexivity.
  - reflexivity.
  - exact H.
Defined.

(** The insertion is not undone by a failure that comes after it.  When
    the body of a 201 holds a [session_id] and an [initial_message] that
    cannot be sliced (null, a number, a boolean, an object), the block
    raises once the session is stored: the caller gets the apology, the
    session stays, and the next request with that key sends a message to
    it instead of starting a session. *)
Theorem session_kept_when_greeting_is_no_text (w w' : World)
    (request request' : ChatCompletionRequest) (st : State)
    (r : HttpResponse) (items : list (str * json)) (sid first : json)
    (e : exn) :
  sessions st !! get_conversation_id (messages request) = None ->
  http_post w (start_url w)
    (start_payload (extract_config_from_system_prompt (messages request)))
  = Responds r ->
  status_code r = 201%Z ->
  json_body r = Some (JObj items) ->
  assoc (lit "session_id") items = Some sid ->
  assoc (lit "initial_message") items = Some first ->
  slice_to 50 first = Raise e ->
  let st1 := snd (chat_completions w request st) in
  fst (chat_completions w request st) = Ok (respond w request (JStr apology))
  /\ sessions st1
     = <[get_conversation_id (messages request) :=
           {| session_id := sid;
              config := extract_config_from_system_prompt (messages request);
              created := clock_session w; initial_message := first |}]>
         (sessions st)
  /\ (get_conversation_id (messages request')
      = get_conversation_id (messages request) ->
      posted (snd (chat_completions w' request' st1))
      = posted st1
        ++ [(message_url w',
             message_payload sid (get_last_user_message (messages request')))]).
Proof.
  intros Hmiss Hpost Hstatus Hbody Hsid Hfirst Hslice. cbv zeta.
  pose proof (chat_completions_run w request st) as R. cbv zeta in R.
  rewrite Hmiss, teacher_reply_miss in R. cbv zeta in R.
  rewrite Hpost in R. cbn [call_outcome] in R.
  rewrite Hstatus in R. cbn [Z.eqb Pos.eqb] in R.
  unfold response_json in R. rewrite Hbody in R.
  cbn [getitem get] in R. rewrite Hsid, Hfirst, Hslice in R.
  cbn [fst snd] in R. rewrite R. cbn [fst snd sessions].
  split; [reflexivity|]. split; [reflexivity|].
  intros K.
  apply (hit_sends_one_message w' request' _
           {| session_id := sid;
              config := extract_config_from_system_prompt (messages request);
              created := clock_session w; initial_message := first |}).
  rewrite K. cbn [sessions]. apply lookup_insert_eq.
Qed.

Lemma session_kept_when_greeting_is_no_text_witness :
  let w := {| TEACHER_API_URL := lit "http://backend";
              http_post := fun _ _ =>
                Responds {| status_code := 201; text := [];
                            json_body :=
                              Some (JObj [ (lit "session_id", JStr (lit "s-1"));
                                           (lit "initial_message", JNull) ]) |};
              clock_session := 0%Q; clock_response := 0%Q;
              uuid4 := lit "id" |} in
  let request := {| model := lit "ai-teacher";
                    messages := [ {| role := lit "user"; content := lit "Hello" |} ];
                    stream := false; temperature := None; max_tokens := None |} in
  let st := {| sessions := ∅; posted := [] |} in
  fst (chat_completions w request st) = Ok (respond w request (JStr apology))
  /\ is_Some (sessions (snd (chat_completions w request st))
                !! get_conversation_id (messages request)).
Proof.
  cbv zeta.
  match goal with
  | |- fst (chat_completions ?w ?request ?st) = _ /\ _ =>
      pose proof (session_kept_when_greeting_is_no_text w w request request st
                    {| status_code := 201; text := [];
                       json_body :=
                         Some (JObj [ (lit "session_id", JStr (lit "s-1"));
                                      (lit "initial_message", JNull) ]) |}
                    [ (lit "session_id", JStr (lit "s-1"));
                      (lit "initial_message", JNull) ]
                    (JStr (lit "s-1")) JNull TypeError) as H
  end.
  cbv zeta in H. destruct H as (A & B & _).
  - apply lookup_empty.
  - reflexivity.
  - reflexivity.
  - reflexivity.
  - reflexivity.
  - reflexivity.
  - reflexivity.
  - split; [exact A|]. rewrite B, lookup_insert_eq. eauto.
Defined.

(** A [teacher_message] that is a JSON array passes the slice of the log
    line and becomes the reply as it is: without streaming it is the
    content of the choice, with streaming the generator raises on
    [text.split()] at its first step, after the response has been
    returned. *)
Theorem array_reply_breaks_the_stream (w : World)
    (request : ChatCompletionRequest) (st : State) (s : Session)
    (r : HttpResponse) (items : list (str * json)) (elements : list json) :
  sessions st !! get_conversation_id (messages request) = Some s ->
  http_post w (message_url w)
    (message_payload (session_id s) (get_last_user_message (messages request)))
  = Responds r ->
  status_code r = 200%Z ->
  json_body r = Some (JObj items) ->
  assoc (lit "teacher_message") items = Some (JArr elements) ->
  fst (chat_completions w request st)
  = Ok (if stream request
        then StreamingResponse (Raise AttributeError) (lit "text/event-stream")
        else ModelResponse
               {| cc_id := uuid4 w;
                  cc_object := lit "chat.completion";
                  cc_created := int_of_float (clock_response w);
                  cc_model := model request;
                  cc_choices :=
                    [ JObj [ (lit "index", JInt 0);
                             (lit "message",
                               JObj [ (lit "role", JStr (lit "assistant"));
                                      (lit "content", JArr elements) ]);
                             (lit "finish_reason", JStr (lit "stop")) ] ] |}).
Proof.
  intros Hhit Hpost Hstatus Hbody Hmsg.
  rewrite (hit_run w request st s r items Hhit Hpost Hstatus Hbody).
  cbn [get]. rewrite Hmsg. cbn [slice_to]. unfold respond.
  destruct (stream request); reflexivity.
Qed.

Lemma array_reply_breaks_the_stream_witness :
  let w := {| TEACHER_API_URL := lit "http://backend";
              http_post := fun _ _ =>
                Responds {| status_code := 200; text := [];
                            json_body :=
                              Some (JObj [ (lit "teacher_message",
                                             JArr [ JStr (lit "one");
                                                    JStr (lit "two") ]) ]) |};
              clock_session := 0%Q; clock_response := 0%Q;
              uuid4 := lit "id" |} in
  let request := {| model := lit "ai-teacher";
                    messages := [ {| role := lit "user"; content := lit "Hello" |} ];
                    stream := true; temperature := None; max_tokens := None |} in
  let s := {| session_id := JStr (lit "s-1");
              config := default_config; created := 0%Q;
              initial_message := JStr (lit "Hi") |} in
  let st := {| sessions := <[get_conversation_id (messages request) := s]> ∅;
               posted := [] |} in
  fst (chat_completions w request st)
  = Ok (StreamingResponse (Raise AttributeError) (lit "text/event-stream")).
Proof.
  cbv zeta.
  match goal with
  | |- fst (chat_completions ?w ?request ?st) = _ =>
      pose proof (array_reply_breaks_the_stream w request st
                    {| session_id := JStr (lit "s-1");
                       config := default_config; created := 0%Q;
                       initial_message := JStr (lit "Hi") |}
                    {| status_code := 200; text := [];
                       json_body :=
                         Some (JObj [ (lit "teacher_message",
                                        JArr [ JStr (lit "one");
                                               JStr (lit "two") ]) ]) |}
                    [ (lit "teacher_message",
                        JArr [ JStr (lit "one"); JStr (lit "two") ]) ]
                    [ JStr (lit "one"); JStr (lit "two") ]) as H
  end.
  apply H.
  - cbn [sessions]. apply lookup_insert_eq.
  - reflexivity.
  - reflexivity.
  - reflexivity.
  - reflexivity.
Defined.

(** ** More on the Response Translator *)

Lemma delimited_solid txt words : delimited txt words -> Forall solid words.
Proof. induction 1; now constructor. Qed.

Lemma split_of_deltas words :
  Forall solid words -> split (concat (word_deltas words)) = words.
Proof.
  unfold split. induction 1 as [|word words [Hne Hword] _ IH]; [reflexivity|].
  cbn [word_deltas List.map concat]. rewrite <- app_assoc.
  rewrite split_from_solid by assumption. cbn [app].
  destruct word as [|c word]; [contradiction|].
  simpl. f_equal. exact IH.
Qed.

(** What the stream carries can be read back: the deltas, put end to
    end, are the words of the reply separated by single spaces, and
    splitting them again gives the words of the reply. *)
Theorem streamed_words_reassemble (w : World) (txt chat_id model : str) :
  let created := int_of_float (clock_response w) in
  let deltas := word_deltas (split txt) in
  stream_response w txt chat_id model
  = List.map (delta_event chat_id created model) deltas
    ++ [stop_event chat_id created model; done_event]
  /\ split (concat deltas) = split txt
  /\ Forall (fun d => exists word, d = word ++ [32] /\ solid word) deltas.
Proof.
  cbv zeta. split; [|split].
  - unfold stream_response. f_equal.
    induction (split txt) as [|word words IH]; [reflexivity|].
    cbn [word_events word_deltas List.map]. f_equal. exact IH.
  - apply split_of_deltas. apply (delimited_solid txt), delimited_split.
  - pose proof (delimited_solid txt _ (delimited_split txt)) as H.
    unfold word_deltas. induction H as [|word words Hw _ IH]; [constructor|].
    cbn [List.map]. constructor; [|exact IH]. now exists word.
Qed.

(** *** The events are lines of printable ASCII *)

Lemma printable_app s t :
  Forall printable s -> Forall printable t -> Forall printable (s ++ t).
Proof. intros Hs Ht. apply List.Forall_app. now split. Qed.

Ltac printable_lit :=
  match goal with
  | |- Forall printable ?l =>
      let l' := eval vm_compute in l in
      change (Forall printable l');
      repeat (apply List.Forall_cons; [unfold printable; lia|]);
      apply List.Forall_nil
  end.

Lemma hex_char_printable c : hex_char c -> printable c.
Proof. unfold hex_char, printable. lia. Qed.

Lemma hex4_printable z : Forall printable (hex4 z).
Proof.
  unfold hex4.
  repeat (apply List.Forall_cons;
          [apply hex_char_printable, hex_digit_char, Z.mod_pos_bound; lia|]).
  apply List.Forall_nil.
Qed.

Lemma escape_char_printable c : Forall printable (escape_char c).
Proof.
  unfold escape_char.
  repeat match goal with
         | |- context [if ?b then _ else _] =>
             destruct b eqn:?; [try printable_lit|]
         end.
  - apply List.Forall_cons; [|apply List.Forall_nil].
    match goal with
    | H : (_ && _)%bool = true |- _ => apply andb_true_iff in H as [H1 H2]
    end.
    apply N.leb_le in H1, H2. unfold printable. lia.
  - apply printable_app; [printable_lit | apply hex4_printable].
  - apply printable_app; [printable_lit|].
    apply printable_app; [apply hex4_printable|].
    apply printable_app; [printable_lit | apply hex4_printable].
Qed.

Lemma dumps_str_printable s : Forall printable (dumps_str s).
Proof.
  unfold dumps_str. apply printable_app; [printable_lit|].
  apply printable_app; [|printable_lit].
  apply Forall_flat_map. apply List.Forall_forall.
  intros c _. apply escape_char_printable.
Qed.

Lemma lit_String a s : lit (String a s) = N_of_ascii a :: lit s.
Proof. reflexivity. Qed.

Lemma uint_printable d : Forall printable (lit (NilEmpty.string_of_uint d)).
Proof.
  induction d; cbn [NilEmpty.string_of_uint];
    [apply List.Forall_nil | ..];
    (rewrite lit_String; apply List.Forall_cons;
     [unfold printable; vm_compute; split; discriminate | exact IHd]).
Qed.

Lemma dumps_int_printable n : Forall printable (dumps_int n).
Proof.
  unfold dumps_int. destruct (Z.to_int n) as [d|d]; cbn [NilZero.string_of_int].
  - destruct d; try apply uint_printable. printable_lit.
  - rewrite lit_String. apply List.Forall_cons;
      [unfold printable; vm_compute; split; discriminate|].
    destruct d; try apply uint_printable. printable_lit.
Qed.

(** [json.dumps] writes printable ASCII only, whatever the value: every
    other character of a text is escaped. *)
Lemma dumps_printable : forall v, Forall printable (dumps v).
Proof.
  fix IH 1. intros [| [|] | n | s | items | items]; cbn [dumps].
  - printable_lit.
  - printable_lit.
  - printable_lit.
  - apply dumps_int_printable.
  - apply dumps_str_printable.
  - apply printable_app; [printable_lit|].
    apply printable_app; [|printable_lit].
    induction items as [|x items IHitems]; [apply List.Forall_nil|].
    apply printable_app; [apply IH|].
    destruct items; [apply List.Forall_nil|].
    apply printable_app; [printable_lit | exact IHitems].
  - apply printable_app; [printable_lit|].
    apply printable_app; [|printable_lit].
    induction items as [|[k x] items IHitems]; [apply List.Forall_nil|].
    apply printable_app; [apply dumps_str_printable|].
    apply printable_app; [printable_lit|].
    apply printable_app; [apply IH|].
    destruct items; [apply List.Forall_nil|].
    apply printable_app; [printable_lit | exact IHitems].
Qed.

(** Every event of the stream is one SSE frame: [data: ], a payload of
    printable ASCII, so without a line break inside whatever the reply,
    the id and the model hold, and the blank line that ends the event. *)
Theorem stream_events_are_single_lines (w : World) (txt chat_id model : str)
    (event : str) :
  In event (stream_response w txt chat_id model) ->
  exists payload,
    event = lit "data: " ++ payload ++ [newline; newline]
    /\ Forall printable payload
    /\ ~ In newline payload.
Proof.
  assert (P : forall payload, Forall printable payload ->
                exists p, lit "data: " ++ payload ++ [newline; newline]
                          = lit "data: " ++ p ++ [newline; newline]
                          /\ Forall printable p /\ ~ In newline p).
  { intros payload H. exists payload. split; [reflexivity|]. split; [exact H|].
    intros Hin. rewrite List.Forall_forall in H. specialize (H _ Hin).
    unfold printable, newline in H. lia. }
  unfold stream_response. intros Hin. apply in_app_or in Hin as [Hin|Hin].
  - induction (split txt) as [|word words IH]; [contradiction|].
    destruct Hin as [<-|Hin]; [|now apply IH].
    apply P, dumps_printable.
  - destruct Hin as [<-|[<-|[]]].
    + apply P, dumps_printable.
    + apply (P (lit "[DONE]")). printable_lit.
Qed.

Lemma stream_events_are_single_lines_witness :
  exists payload,
    stop_event [10; 34] 0 [233] = lit "data: " ++ payload ++ [newline; newline]
    /\ Forall printable payload
    /\ ~ In newline payload.
Proof.
  apply (stream_events_are_single_lines
           {| TEACHER_API_URL := lit "http://backend";
              http_post := fun _ _ => Fails [];
              clock_session := 0%Q; clock_response := 0%Q;
              uuid4 := lit "id" |} [] [10; 34] [233]).
  vm_compute. left. reflexivity.
Defined.
